(** * fetch_rhm: daily indicator pipeline for one instrument

    Shallow embedding of [fetch_rhm.py].  The script loads a daily OHLCV
    table, derives Bollinger bands, RSI, MACD, Chaikin money flow and
    on-balance volume with pandas, estimates support/resistance levels and a
    historical-volatility proxy, and writes one JSON document plus a CSV of
    the last 120 enriched rows.

    Numbers.  A float64 cell is modelled by [float64]: either NaN, one of
    the two infinities, or a finite value carried as an exact rational.
    Rounding error and the sign of zero are not modelled; NaN and infinity
    behave as in IEEE 754.  Every operation returns its finite result as a
    reduced fraction ([Qred]), so a value has one representation.  [np.log] and [np.sqrt] are taken through the
    interface [NumLib], so that every statement holds for any implementation
    of the two functions that satisfies the listed laws.  The int64 volume
    column and the on-balance volume are integers in [Z]; the sums and
    differences that [obv] forms on numpy int64 scalars wrap around at
    [2^63] ([np.int64_wrap]), and the passage of the int64 cells of the last
    row through float64 in [main] rounds to 53 significant bits
    ([F.of_int64]).

    pandas.  [Series] is a list of cells; the pandas operations the script
    calls ([diff], [where], [replace], [rolling], [ewm], [tail], ...) are
    defined in [Module pd] after their documented behaviour with the default
    arguments the script relies on. *)

From Stdlib Require Import String.
From Stdlib Require Import List ZArith QArith Qround Qabs Lia Lqa Bool.
From Stdlib Require Import Morphisms Setoid.
Import ListNotations.

Local Open Scope Q_scope.

(* ------------------------------------------------------------------ *)
(** ** float64 cells *)

Inductive float64 : Type :=
| NaN
| PInf
| NInf
| Fin (q : Q).

Module F.

Definition isnan (x : float64) : bool :=
  match x with NaN => true | _ => false end.

(** NaN or one of the infinities. *)
Definition notfinite (x : float64) : bool :=
  match x with Fin _ => false | _ => true end.

Definition Qlt_bool (a b : Q) : bool := negb (Qle_bool b a).

Definition is_zero (x : float64) : bool :=
  match x with Fin q => Qeq_bool q 0 | _ => false end.

Definition of_Z (z : Z) : float64 := Fin (inject_Z z).
Definition of_nat (n : nat) : float64 := of_Z (Z.of_nat n).

(** The integer that the float64 nearest to [z] holds: [z] itself below
    [2^53], else [z] rounded to 53 significant bits, ties to even. *)
Definition round_to_53_bits (z : Z) : Z :=
  let a := Z.abs z in
  if (a <? 9007199254740992)%Z then z
  else
    let unit := (2 ^ (Z.log2 a - 52))%Z in
    let q := (a / unit)%Z in
    let r := (a mod unit)%Z in
    let q' :=
      match (2 * r ?= unit)%Z with
      | Lt => q
      | Gt => (q + 1)%Z
      | Eq => if Z.even q then q else (q + 1)%Z
      end in
    (Z.sgn z * (q' * unit))%Z.

(** The float64 cell that an int64 cell becomes when its column or row is
    converted to float64. *)
Definition of_int64 (z : Z) : float64 := Fin (inject_Z (round_to_53_bits z)).

(** Python's [int(x)] on a float: truncation toward zero; [None] stands for
    the ValueError on NaN and the OverflowError on an infinity. *)
Definition to_int (x : float64) : option Z :=
  match x with
  | Fin q => Some (if Qle_bool 0 q then Qfloor q else (- Qfloor (- q))%Z)
  | _ => None
  end.

Definition neg (x : float64) : float64 :=
  match x with
  | NaN => NaN
  | PInf => NInf
  | NInf => PInf
  | Fin q => Fin (- q)
  end.

Definition add (x y : float64) : float64 :=
  match x, y with
  | NaN, _ | _, NaN => NaN
  | PInf, NInf | NInf, PInf => NaN
  | PInf, _ | _, PInf => PInf
  | NInf, _ | _, NInf => NInf
  | Fin a, Fin b => Fin (Qred (a + b))
  end.

Definition sub (x y : float64) : float64 := add x (neg y).

(** An infinity with the sign of [q] times the sign of the infinity;
    [inf * 0] is NaN. *)
Definition inf_times (positive_inf : bool) (q : Q) : float64 :=
  match Qcompare q 0 with
  | Eq => NaN
  | Gt => if positive_inf then PInf else NInf
  | Lt => if positive_inf then NInf else PInf
  end.

Definition mul (x y : float64) : float64 :=
  match x, y with
  | NaN, _ | _, NaN => NaN
  | PInf, PInf | NInf, NInf => PInf
  | PInf, NInf | NInf, PInf => NInf
  | PInf, Fin q | Fin q, PInf => inf_times true q
  | NInf, Fin q | Fin q, NInf => inf_times false q
  | Fin a, Fin b => Fin (Qred (a * b))
  end.

(** Division as numpy does it on arrays: a zero divisor gives an infinity
    (or NaN for 0/0), never an exception. *)
Definition div (x y : float64) : float64 :=
  match x, y with
  | NaN, _ | _, NaN => NaN
  | (PInf | NInf), (PInf | NInf) => NaN
  | Fin _, (PInf | NInf) => Fin 0
  | PInf, Fin b => if Qlt_bool b 0 then NInf else PInf
  | NInf, Fin b => if Qlt_bool b 0 then PInf else NInf
  | Fin a, Fin b =>
      if Qeq_bool b 0 then
        match Qcompare a 0 with Eq => NaN | Gt => PInf | Lt => NInf end
      else Fin (Qred (a / b))
  end.

(** Comparisons; any comparison with NaN is false. *)
Definition ltb (x y : float64) : bool :=
  match x, y with
  | NaN, _ | _, NaN => false
  | _, NInf => false
  | NInf, _ => true
  | PInf, _ => false
  | Fin _, PInf => true
  | Fin a, Fin b => Qlt_bool a b
  end.

Definition gtb (x y : float64) : bool := ltb y x.

Definition leb (x y : float64) : bool :=
  match x, y with
  | NaN, _ | _, NaN => false
  | NInf, _ => true
  | _, PInf => true
  | _, NInf => false
  | PInf, _ => false
  | Fin a, Fin b => Qle_bool a b
  end.

(** [min]/[max] of two cells, neither of them NaN where it is used. *)
Definition min (x y : float64) : float64 := if leb x y then x else y.
Definition max (x y : float64) : float64 := if leb x y then y else x.

(** Python's [round(x, ndigits)] on a float: round half to even at
    [ndigits] decimals; NaN and the infinities are returned unchanged. *)
Definition round_half_even (q : Q) : Z :=
  let f := Qfloor q in
  match Qcompare (q - inject_Z f) (1 # 2) with
  | Lt => f
  | Gt => (f + 1)%Z
  | Eq => if Z.even f then f else (f + 1)%Z
  end.

Definition round (x : float64) (ndigits : nat) : float64 :=
  match x with
  | Fin q =>
      let scale := inject_Z (10 ^ Z.of_nat ndigits) in
      Fin (Qred (inject_Z (round_half_even (q * scale)) / scale))
  | _ => x
  end.

End F.

(** [np.log] and [np.sqrt] on positive, respectively non-negative, finite
    arguments.  The laws are the ones the float64 functions have: equal
    arguments give equal results, a square root is never negative, and the
    square root of zero is zero. *)
Class NumLib : Type := {
  np_log_pos : Q -> Q;
  np_sqrt_nonneg : Q -> Q;
  np_log_pos_proper : Proper (Qeq ==> Qeq) np_log_pos;
  np_sqrt_nonneg_proper : Proper (Qeq ==> Qeq) np_sqrt_nonneg;
  np_sqrt_nonneg_ge0 : forall x, 0 <= np_sqrt_nonneg x;
  np_sqrt_nonneg_zero : np_sqrt_nonneg 0 == 0
}.

Module np.

(** Arithmetic on numpy int64 scalars: a sum or difference is reduced into
    the range from [-2^63] to [2^63 - 1] (two's complement wrap-around). *)
Definition int64_wrap (z : Z) : Z :=
  ((z + 9223372036854775808) mod 18446744073709551616
   - 9223372036854775808)%Z.

Section WithNumLib.
Context {L : NumLib}.

(** [np.log]: NaN for a negative argument, -inf at 0. *)
Definition log (x : float64) : float64 :=
  match x with
  | NaN => NaN
  | PInf => PInf
  | NInf => NaN
  | Fin q =>
      match Qcompare q 0 with
      | Gt => Fin (Qred (np_log_pos q))
      | Eq => NInf
      | Lt => NaN
      end
  end.

(** [np.sqrt]: NaN for a negative argument. *)
Definition sqrt (x : float64) : float64 :=
  match x with
  | NaN => NaN
  | PInf => PInf
  | NInf => NaN
  | Fin q => if F.Qlt_bool q 0 then NaN else Fin (Qred (np_sqrt_nonneg q))
  end.
End WithNumLib.
End np.


(* ------------------------------------------------------------------ *)
(** ** pandas Series operations *)

Definition Series : Type := list float64.

Module pd.
Section WithNumLib.
Context {L : NumLib}.

(** Element-wise binary operation of two Series over the same index. *)
Definition zip_with (f : float64 -> float64 -> float64) (a b : Series) : Series :=
  map (fun '(x, y) => f x y) (combine a b).

(** [s.diff()]: NaN at position 0, then [s[i] - s[i-1]]. *)
Definition diff (s : Series) : Series :=
  match s with
  | [] => []
  | _ :: later => NaN :: zip_with F.sub later s
  end.

(** [s.where(cond, other)]: keep the cell where [cond] holds, else [other]. *)
Definition where_ (cond : float64 -> bool) (other : float64) (s : Series) : Series :=
  map (fun x => if cond x then x else other) s.

(** [s.replace(0, np.nan)]. *)
Definition replace_zero_nan (s : Series) : Series :=
  map (fun x => if F.is_zero x then NaN else x) s.

(** [s.tail(n)]. *)
Definition tail {A : Type} (n : nat) (s : list A) : list A :=
  skipn (length s - n) s.

(** [s.dropna()]. *)
Definition dropna (s : Series) : Series :=
  filter (fun x => negb (F.isnan x)) s.

(** [s.iloc[-1]] of a non-empty Series, and [float(s)] of a Series of
    length one. *)
Definition iloc_last (s : Series) : float64 := last s NaN.

(** The [window] cells ending at position [i]. *)
Definition window_at (window : nat) (s : Series) (i : nat) : list float64 :=
  firstn window (skipn (i + 1 - window) s).

(** [s.rolling(window).agg()] with the default [min_periods = window]:
    NaN until [window] cells are available, NaN while the window holds a
    NaN or an infinite cell (pandas turns the infinite cells of the column
    into NaN before it aggregates), else the aggregate of the window. *)
Definition rolling (window : nat) (agg : list float64 -> float64) (s : Series) : Series :=
  map (fun i =>
         if (i + 1 <? window)%nat then NaN
         else
           let w := window_at window s i in
           if existsb F.notfinite w then NaN else agg w)
      (seq 0 (length s)).

Definition sum (w : list float64) : float64 := fold_right F.add (Fin 0) w.

Definition mean (w : list float64) : float64 :=
  F.div (sum w) (F.of_nat (length w)).

(** Sample variance ([ddof = 1]); NaN for a single observation. *)
Definition var (w : list float64) : float64 :=
  if (length w <=? 1)%nat then NaN
  else
    let m := mean w in
    F.div (sum (map (fun x => F.mul (F.sub x m) (F.sub x m)) w))
          (F.of_nat (length w - 1)).

Definition std (w : list float64) : float64 := np.sqrt (var w).

Definition min (w : list float64) : float64 :=
  match w with
  | [] => NaN
  | x :: rest => fold_left F.min rest x
  end.

Definition max (w : list float64) : float64 :=
  match w with
  | [] => NaN
  | x :: rest => fold_left F.max rest x
  end.

(** [s.ewm(span=span, adjust=False).mean()] with the defaults
    [min_periods = 0] and [ignore_na = False]: the running average starts at
    the first observation, [y_t = (1 - alpha) y_(t-1) + alpha x_t] with
    [alpha = 2 / (span + 1)]; a NaN cell repeats the previous average and
    ages its weight by one more factor [1 - alpha]. *)
Fixpoint ewm_loop (alpha : Q) (weighted : float64) (old_wt : Q) (vals : Series)
  : Series :=
  match vals with
  | [] => []
  | cur :: rest =>
      let '(weighted', old_wt') :=
        if F.isnan weighted then (cur, old_wt)
        else
          let aged := Qred (old_wt * (1 - alpha)) in
          if F.isnan cur then (weighted, aged)
          else
            (F.div (F.add (F.mul (Fin aged) weighted) (F.mul (Fin alpha) cur))
                   (Fin (Qred (aged + alpha))),
             1)
      in
      weighted' :: ewm_loop alpha weighted' old_wt' rest
  end.

Definition ewm_mean (span : nat) (s : Series) : Series :=
  match s with
  | [] => []
  | x0 :: rest => x0 :: ewm_loop (2 / (inject_Z (Z.of_nat span) + 1)) x0 1 rest
  end.

End WithNumLib.
End pd.


(* ------------------------------------------------------------------ *)
(** ** The price table *)

(** One row of the table returned by the download: the date (already as the
    text [%Y-%m-%d]), the prices and the traded volume (an int64 cell). *)
Record Bar : Type := {
  Date : string;
  Open : Q;
  High : Q;
  Low : Q;
  Close : Q;
  Adj_Close : Q;
  Volume : Z
}.

Definition DataFrame : Type := list Bar.

(** [df[name]] for a price column and for the volume column. *)
Definition col (df : DataFrame) (field : Bar -> Q) : Series :=
  map (fun b => Fin (field b)) df.

Definition col_volume (df : DataFrame) : list Z := map Volume df.

(** [s.iloc[i]] for a position inside the Series. *)
Definition iloc (s : Series) (i : nat) : float64 := nth i s NaN.

Definition TICKER : string := "RHM.DE"%string.
Definition LOOKBACK_DAYS : nat := 180.

(* ------------------------------------------------------------------ *)
(** ** Indicators *)

Section Indicators.
Context {L : NumLib}.

Definition rsi (series : Series) (period : nat) : Series :=
  let delta := pd.diff series in
  let gain :=
    pd.rolling period pd.mean
      (pd.where_ (fun d => F.gtb d (Fin 0)) (Fin 0) delta) in
  let loss :=
    pd.rolling period pd.mean
      (map F.neg (pd.where_ (fun d => F.ltb d (Fin 0)) (Fin 0) delta)) in
  let rs := pd.zip_with F.div gain (pd.replace_zero_nan loss) in
  map (fun r => F.sub (Fin 100) (F.div (Fin 100) (F.add (Fin 1) r))) rs.

Definition macd (series : Series) (fast slow signal : nat)
  : Series * Series * Series :=
  let ema_fast := pd.ewm_mean fast series in
  let ema_slow := pd.ewm_mean slow series in
  let macd_line := pd.zip_with F.sub ema_fast ema_slow in
  let signal_line := pd.ewm_mean signal macd_line in
  let hist := pd.zip_with F.sub macd_line signal_line in
  (macd_line, signal_line, hist).

Definition bollinger (series : Series) (window : nat) (mult : Q)
  : Series * Series * Series :=
  let ma := pd.rolling window pd.mean series in
  let std := pd.rolling window pd.std series in
  let upper := pd.zip_with F.add ma (map (F.mul (Fin mult)) std) in
  let lower := pd.zip_with F.sub ma (map (F.mul (Fin mult)) std) in
  (ma, upper, lower).

Definition chaikin_mf (df : DataFrame) (period : nat) : Series :=
  let high := col df High in
  let low := col df Low in
  let close := col df Close in
  let volume := map F.of_Z (col_volume df) in
  let tp :=
    map (fun x => F.div x (Fin 3))
        (pd.zip_with F.add (pd.zip_with F.add high low) close) in
  let mf_mult :=
    pd.zip_with F.div
      (pd.zip_with F.sub (pd.zip_with F.sub close low)
                         (pd.zip_with F.sub high close))
      (pd.replace_zero_nan (pd.zip_with F.sub high low)) in
  let mf_vol := pd.zip_with F.mul mf_mult volume in
  let cmf :=
    pd.zip_with F.div (pd.rolling period pd.sum mf_vol)
                      (pd.rolling period pd.sum volume) in
  cmf.

(** One turn of the loop of [obv], for index [i]. *)
Definition obv_step (df : DataFrame) (obv_vals : list Z) (i : nat) : list Z :=
  let close := col df Close in
  let volume := col_volume df in
  if F.gtb (iloc close i) (iloc close (i - 1)) then
    obv_vals ++ [np.int64_wrap (last obv_vals 0 + nth i volume 0)%Z]
  else if F.ltb (iloc close i) (iloc close (i - 1)) then
    obv_vals ++ [np.int64_wrap (last obv_vals 0 - nth i volume 0)%Z]
  else
    obv_vals ++ [last obv_vals 0%Z].

Definition obv_vals (df : DataFrame) : list Z :=
  fold_left (obv_step df) (seq 1 (length df - 1)) [0%Z].

(** [pd.Series(obv_vals, index=df.index)] raises ValueError when the two
    lengths differ; [None] stands for that exception. *)
Definition obv (df : DataFrame) : option (list Z) :=
  let vals := obv_vals df in
  if (length vals =? length df)%nat then Some vals else None.

End Indicators.


(* ------------------------------------------------------------------ *)
(** ** The run: [main] *)

(** The table after the indicator columns are added. *)
Record Frame : Type := {
  rows : DataFrame;
  BB_MA20 : Series;
  BB_Upper : Series;
  BB_Lower : Series;
  RSI14 : Series;
  MACD : Series;
  MACD_Signal : Series;
  MACD_Hist : Series;
  CMF20 : Series;
  OBV : list Z
}.

(** [frame.tail(n)], column by column. *)
Definition frame_tail (n : nat) (f : Frame) : Frame :=
  {| rows := pd.tail n (rows f);
     BB_MA20 := pd.tail n (BB_MA20 f);
     BB_Upper := pd.tail n (BB_Upper f);
     BB_Lower := pd.tail n (BB_Lower f);
     RSI14 := pd.tail n (RSI14 f);
     MACD := pd.tail n (MACD f);
     MACD_Signal := pd.tail n (MACD_Signal f);
     MACD_Hist := pd.tail n (MACD_Hist f);
     CMF20 := pd.tail n (CMF20 f);
     OBV := pd.tail n (OBV f) |}.

(** A number of the JSON document: [None] is Python's [None] (written as
    null), [Some x] is the float [x], which may be NaN. *)
Definition json_number : Type := option float64.

Record Price : Type := {
  close : json_number;
  open : json_number;
  high : json_number;
  low : json_number;
  volume : Z
}.

Record BollingerOut : Type := {
  ma20 : json_number;
  upper : json_number;
  lower : json_number
}.

Record MacdOut : Type := {
  line : json_number;
  signal : json_number;
  hist : json_number
}.

Record IndicatorsOut : Type := {
  bollinger_out : BollingerOut;
  rsi14 : json_number;
  macd_out : MacdOut;
  cmf20 : json_number;
  obv_out : json_number
}.

Record Levels : Type := {
  support_hint : json_number;
  resistance_hint : json_number
}.

Record Volatility : Type := {
  hv20_proxy : json_number;
  iv_atm_estimate_note : string
}.

Record Payload : Type := {
  ticker : string;
  as_of : string;
  price : Price;
  indicators : IndicatorsOut;
  levels : Levels;
  volatility : Volatility
}.

(** What the run leaves on disk. *)
Record Files : Type := {
  rhm_latest_json : option Payload;
  rhm_prices_last120_csv : option Frame
}.

(** How the run ends: [SystemExit], another exception, or a normal return. *)
Inductive outcome : Type :=
| SystemExit (msg : string)
| Raised (exc : string)
| Returned.

(** [float(x) if not np.isnan(x) else None]. *)
Definition float_or_none (x : float64) : json_number :=
  if negb (F.isnan x) then Some x else None.

(** Truth value of [hv20] in [if hv20]: [None] and [0.0] are false, every
    other float (NaN included) is true. *)
Definition truthy (hv20 : option float64) : bool :=
  match hv20 with
  | None => false
  | Some x => negb (F.is_zero x)
  end.

Section Run.
Context {L : NumLib}.

Definition support (df : DataFrame) : float64 :=
  let recent := pd.tail 40 df in
  pd.iloc_last (pd.tail 1 (pd.rolling 5 pd.min (col recent Low))).

Definition resistance (df : DataFrame) : float64 :=
  let recent := pd.tail 40 df in
  pd.iloc_last (pd.tail 1 (pd.rolling 5 pd.max (col recent High))).

Definition logret (df : DataFrame) : Series :=
  pd.diff (map np.log (col df Close)).

Definition hv20 (df : DataFrame) : option float64 :=
  if (20 <? length (pd.dropna (logret df)))%nat then
    Some (F.mul (pd.iloc_last (pd.rolling 20 pd.std (logret df)))
                (np.sqrt (Fin 252)))
  else None.

(** [latest = df.tail(1).iloc[0]] is a row of floats: the int64 cells of
    the volume and of the on-balance volume are converted to float64 there,
    and [int(latest['Volume'])] converts the float back. *)
Definition main (df : DataFrame) (files : Files) : outcome * Files :=
  match df with
  | [] => (SystemExit "Keine Daten geladen.", files)
  | _ :: _ =>
      let '(bb_ma20, bb_upper, bb_lower) := bollinger (col df Close) 20 2 in
      let rsi14_col := rsi (col df Close) 14 in
      let '(macd_line, macd_signal, macd_hist) := macd (col df Close) 12 26 9 in
      let cmf20_col := chaikin_mf df 20 in
      match obv df with
      | None => (Raised "ValueError", files)
      | Some obv_col =>
          let frame :=
            {| rows := df;
               BB_MA20 := bb_ma20; BB_Upper := bb_upper; BB_Lower := bb_lower;
               RSI14 := rsi14_col;
               MACD := macd_line; MACD_Signal := macd_signal;
               MACD_Hist := macd_hist;
               CMF20 := cmf20_col;
               OBV := obv_col |} in
          let support := support df in
          let resistance := resistance df in
          let hv20 := hv20 df in
          let latest := frame_tail 1 frame in
          match F.to_int (F.of_int64 (last (col_volume (rows latest)) 0%Z)) with
          | None => (Raised "ValueError", files)
          | Some volume_int =>
          let payload :=
            {| ticker := TICKER;
               as_of := last (map Date df) ""%string;
               price :=
                 {| close := Some (pd.iloc_last (col (rows latest) Close));
                    open := Some (pd.iloc_last (col (rows latest) Open));
                    high := Some (pd.iloc_last (col (rows latest) High));
                    low := Some (pd.iloc_last (col (rows latest) Low));
                    volume := volume_int |};
               indicators :=
                 {| bollinger_out :=
                      {| ma20 := float_or_none (pd.iloc_last (BB_MA20 latest));
                         upper := float_or_none (pd.iloc_last (BB_Upper latest));
                         lower := float_or_none (pd.iloc_last (BB_Lower latest)) |};
                    rsi14 := float_or_none (pd.iloc_last (RSI14 latest));
                    macd_out :=
                      {| line := float_or_none (pd.iloc_last (MACD latest));
                         signal := float_or_none (pd.iloc_last (MACD_Signal latest));
                         hist := float_or_none (pd.iloc_last (MACD_Hist latest)) |};
                    cmf20 := float_or_none (pd.iloc_last (CMF20 latest));
                    obv_out :=
                      float_or_none (F.of_int64 (last (OBV latest) 0%Z)) |};
               levels :=
                 {| support_hint := Some (F.round support 2);
                    resistance_hint := Some (F.round resistance 2) |};
               volatility :=
                 {| hv20_proxy :=
                      if truthy hv20
                      then option_map (fun x => F.round x 4) hv20
                      else None;
                    iv_atm_estimate_note :=
                      "Wenn echte ATM-IV (Eurex) verfügbar, hier einfügen; aktuell HV20 als Proxy." |}
            |} in
          (Returned,
           {| rhm_latest_json := Some payload;
              rhm_prices_last120_csv := Some (frame_tail 120 frame) |})
          end
      end
  end.

End Run.


(* ------------------------------------------------------------------ *)
(** ** A reference implementation of [NumLib]

    Square root: the integer square root at 52 binary digits after the
    point.  Logarithm: [x = m * 2^e] with [m] between 1/2 and 2, then
    [ln x = 2 atanh ((m - 1) / (m + 1)) + e ln 2] with twelve terms of the
    series.  Both work on the reduced fraction, so equal arguments give the
    same result. *)

Definition ref_sqrt (x : Q) : Q :=
  inject_Z (Z.sqrt (Qfloor (Qred x * inject_Z (2 ^ 104)))) / inject_Z (2 ^ 52).

Fixpoint atanh_terms (n : nat) (k : positive) (ypow y2 : Q) : Q :=
  match n with
  | O => 0
  | S n' =>
      Qred (ypow / inject_Z (Zpos k)
            + atanh_terms n' (k + 2) (Qred (ypow * y2)) y2)
  end.

Definition ln2 : Q := 6931471805599453 # 10000000000000000.

Definition ref_log (x : Q) : Q :=
  let r := Qred x in
  let e := (Z.log2 (Qnum r) - Z.log2 (Zpos (Qden r)))%Z in
  let m := Qred (r / Qpower 2 e) in
  let y := Qred ((m - 1) / (m + 1)) in
  Qred (2 * atanh_terms 12 1 y (Qred (y * y)) + inject_Z e * ln2).

#[export] Instance reference_numlib : NumLib.
Proof.
  refine {| np_log_pos := ref_log; np_sqrt_nonneg := ref_sqrt |}.
  - intros x y H. unfold ref_log. rewrite (Qred_complete _ _ H). reflexivity.
  - intros x y H. unfold ref_sqrt. rewrite (Qred_complete _ _ H). reflexivity.
  - intros x. unfold ref_sqrt.
    apply Qle_shift_div_l; [vm_compute; reflexivity|].
    rewrite Qmult_0_l.
    change 0 with (inject_Z 0). rewrite <- Zle_Qle. apply Z.sqrt_nonneg.
  - vm_compute. reflexivity.
Defined.


(* ------------------------------------------------------------------ *)
(** ** Sample tables *)

Definition two_digits (k : nat) : string :=
  String (Ascii.ascii_of_nat (48 + k / 10))
    (String (Ascii.ascii_of_nat (48 + k mod 10)) EmptyString).

(** A table of consecutive January days from rows (high, low, close,
    volume); the open and the adjusted close repeat the close. *)
Definition table (prices : list (Q * Q * Q * Z)) : DataFrame :=
  map (fun '(k, (h, l, c, v)) =>
         {| Date := ("2024-01-" ++ two_digits (S k))%string;
            Open := c; High := h; Low := l; Close := c; Adj_Close := c;
            Volume := v |})
      (combine (seq 0 (length prices)) prices).

Definition of_nat_Q (k : nat) : Q := inject_Z (Z.of_nat k).

(** Every bar at 100 with no range. *)
Definition flat_table (n : nat) : DataFrame :=
  table (repeat (100, 100, 100, 1000%Z) n).

(** The close rises by one each day. *)
Definition ramp_table (n : nat) : DataFrame :=
  table (map (fun k => (101 + of_nat_Q k, 99 + of_nat_Q k, 100 + of_nat_Q k,
                        1000%Z))
             (seq 0 n)).

(** The close goes up three and down two in turn. *)
Definition zigzag_table (n : nat) : DataFrame :=
  table (map (fun k =>
                if Nat.even k
                then (104 + of_nat_Q k, 101 + of_nat_Q k, 103 + of_nat_Q k,
                      1200%Z)
                else (103 + of_nat_Q k, 99 + of_nat_Q k, 100 + of_nat_Q k,
                      900%Z))
             (seq 0 n)).

(** A rising table whose bar at position 3 has [High = Low]. *)
Definition one_rangeless_bar_table (n : nat) : DataFrame :=
  table (map (fun k =>
                if (k =? 3)%nat
                then (100 + of_nat_Q k, 100 + of_nat_Q k, 100 + of_nat_Q k,
                      1000%Z)
                else (101 + of_nat_Q k, 99 + of_nat_Q k, 100 + of_nat_Q k,
                      1000%Z))
             (seq 0 n)).

(** Three rising bars, each with a volume of [2^62]. *)
Definition huge_volume_table : DataFrame :=
  table [(101, 99, 100, 4611686018427387904%Z);
         (102, 100, 101, 4611686018427387904%Z);
         (103, 101, 102, 4611686018427387904%Z)].

(** A bar with an ordinary volume, and a bar whose volume [2^53 + 1] is not
    a float64 value. *)
Definition ordinary_bar : Bar :=
  {| Date := "2024-01-03"; Open := 102; High := 103; Low := 101;
     Close := 102; Adj_Close := 102; Volume := 1000 |}.

Definition big_volume_bar : Bar :=
  {| Date := "2024-01-03"; Open := 102; High := 103; Low := 101;
     Close := 102; Adj_Close := 102; Volume := 9007199254740993 |}.

Definition no_files : Files :=
  {| rhm_latest_json := None; rhm_prices_last120_csv := None |}.


(* ------------------------------------------------------------------ *)
(** ** Vocabulary of the statements *)

(** Every cell is NaN; every cell is a finite number. *)
Definition all_nan (s : Series) : Prop := Forall (fun x => x = NaN) s.

Definition is_fin (x : float64) : bool :=
  match x with Fin _ => true | _ => false end.

Definition all_fin (s : Series) : Prop := Forall (fun x => is_fin x = true) s.

(** NaN, +inf, or a finite value that is not negative. *)
Definition nneg (x : float64) : Prop :=
  match x with
  | NaN | PInf => True
  | NInf => False
  | Fin q => 0 <= q
  end.

(** NaN, +inf, or a finite value above zero. *)
Definition posv (x : float64) : Prop :=
  match x with
  | NaN | PInf => True
  | NInf => False
  | Fin q => 0 < q
  end.

(** NaN, or a finite value between 0 and 100. *)
Definition percent (x : float64) : Prop :=
  match x with
  | NaN => True
  | Fin q => 0 <= q <= 100
  | _ => False
  end.

(** Inside the range of int64. *)
Definition in_int64 (z : Z) : Prop :=
  (-9223372036854775808 <= z < 9223372036854775808)%Z.

(** The list built by the first [n] turns of the loop. *)
Definition obv_run (df : DataFrame) (n : nat) : list Z :=
  fold_left (obv_step df) (seq 1 n) [0%Z].

(** The local variables [gain] and [loss] of [rsi]: the rolling means. *)
Definition rsi_avg_gain (series : Series) (period : nat) : Series :=
  pd.rolling period pd.mean
    (pd.where_ (fun d => F.gtb d (Fin 0)) (Fin 0) (pd.diff series)).

Definition rsi_avg_loss (series : Series) (period : nat) : Series :=
  pd.rolling period pd.mean
    (map F.neg (pd.where_ (fun d => F.ltb d (Fin 0)) (Fin 0) (pd.diff series))).

(** [100 - 100 / (1 + rs)]. *)
Definition rsi_of_rs (r : float64) : float64 :=
  F.sub (Fin 100) (F.div (Fin 100) (F.add (Fin 1) r)).

Definition json_is_nan (j : json_number) : bool :=
  match j with Some NaN => true | _ => false end.

(** Does any number of the document hold a NaN? *)
Definition payload_has_nan (p : Payload) : bool :=
  json_is_nan (close (price p)) || json_is_nan (open (price p))
  || json_is_nan (high (price p)) || json_is_nan (low (price p))
  || json_is_nan (ma20 (bollinger_out (indicators p)))
  || json_is_nan (upper (bollinger_out (indicators p)))
  || json_is_nan (lower (bollinger_out (indicators p)))
  || json_is_nan (rsi14 (indicators p))
  || json_is_nan (line (macd_out (indicators p)))
  || json_is_nan (signal (macd_out (indicators p)))
  || json_is_nan (hist (macd_out (indicators p)))
  || json_is_nan (cmf20 (indicators p))
  || json_is_nan (obv_out (indicators p))
  || json_is_nan (support_hint (levels p))
  || json_is_nan (resistance_hint (levels p))
  || json_is_nan (hv20_proxy (volatility p)).


(** [q] is the least, respectively the greatest, element of [l]. *)
Definition is_min_of (q : Q) (l : list Q) : Prop :=
  In q l /\ Forall (fun x => q <= x) l.

Definition is_max_of (q : Q) (l : list Q) : Prop :=
  In q l /\ Forall (fun x => x <= q) l.

(** A finite value between [lo] and [hi]. *)
Definition fin_in (lo hi : Q) (x : float64) : Prop :=
  match x with
  | Fin q => lo <= q <= hi
  | _ => False
  end.

(** A finite value that is not negative. *)
Definition finn (x : float64) : Prop :=
  match x with
  | Fin q => 0 <= q
  | _ => False
  end.


(** No value is below the one before it. *)
Fixpoint never_falls (qs : list Q) : Prop :=
  match qs with
  | a :: rest =>
      match rest with
      | b :: _ => a <= b /\ never_falls rest
      | [] => True
      end
  | [] => True
  end.

(** Every close is above the close of the bar before. *)
Definition rising (df : DataFrame) : Prop :=
  forall i prev cur,
    nth_error df i = Some prev -> nth_error df (S i) = Some cur ->
    Close prev < Close cur.

(** The volume traded from bar 1 to bar [i], both included. *)
Definition volume_since_first (df : DataFrame) (i : nat) : Z :=
  fold_right Z.add 0%Z (firstn i (skipn 1 (col_volume df))).


(** The lengths of the nine indicator columns of a table. *)
Definition column_lengths (f : Frame) : list nat :=
  [length (BB_MA20 f); length (BB_Upper f); length (BB_Lower f);
   length (RSI14 f); length (MACD f); length (MACD_Signal f);
   length (MACD_Hist f); length (CMF20 f); length (OBV f)].



(** The table with its indicator columns, as [main] builds it on a
    non-empty table. *)
Definition enriched {L : NumLib} (df : DataFrame) : Frame :=
  let '(bb_ma20, bb_upper, bb_lower) := bollinger (col df Close) 20 2 in
  let '(macd_line, macd_signal, macd_hist) := macd (col df Close) 12 26 9 in
  {| rows := df;
     BB_MA20 := bb_ma20; BB_Upper := bb_upper; BB_Lower := bb_lower;
     RSI14 := rsi (col df Close) 14;
     MACD := macd_line; MACD_Signal := macd_signal; MACD_Hist := macd_hist;
     CMF20 := chaikin_mf df 20;
     OBV := obv_vals df |}.


(* ------------------------------------------------------------------ *)
(** ** Facts about the Series operations *)

Section PdFacts.
Context {L : NumLib}.

Lemma zip_with_length f (a b : Series) :
  length (pd.zip_with f a b) = Nat.min (length a) (length b).
Proof. unfold pd.zip_with. now rewrite length_map, length_combine. Qed.

Lemma combine_nth_lt {A B} (a : list A) (b : list B) i da db :
  (i < length a)%nat -> (i < length b)%nat ->
  nth i (combine a b) (da, db) = (nth i a da, nth i b db).
Proof.
  revert b i. induction a as [|x a IH]; intros [|y b] [|i] Ha Hb;
    simpl in *; try lia; [reflexivity|].
  apply IH; lia.
Qed.

Lemma zip_with_nth f (a b : Series) i :
  (i < length a)%nat -> (i < length b)%nat ->
  nth i (pd.zip_with f a b) NaN = f (nth i a NaN) (nth i b NaN).
Proof.
  intros Ha Hb. unfold pd.zip_with.
  rewrite (nth_indep _ NaN ((fun '(x, y) => f x y) (NaN, NaN)))
    by (rewrite length_map, length_combine; lia).
  rewrite (map_nth (fun '(x, y) => f x y) (combine a b) (NaN, NaN) i).
  now rewrite combine_nth_lt.
Qed.

Lemma diff_length (s : Series) : length (pd.diff s) = length s.
Proof.
  destruct s as [|x s]; [reflexivity|].
  simpl. rewrite zip_with_length. simpl. f_equal. lia.
Qed.

Lemma where_length c o (s : Series) : length (pd.where_ c o s) = length s.
Proof. apply length_map. Qed.

Lemma replace_zero_nan_length (s : Series) :
  length (pd.replace_zero_nan s) = length s.
Proof. apply length_map. Qed.

Lemma rolling_length w agg (s : Series) :
  length (pd.rolling w agg s) = length s.
Proof. unfold pd.rolling. now rewrite length_map, length_seq. Qed.

(** The cell of a rolling aggregate at a position inside the Series. *)
Lemma rolling_nth w agg (s : Series) i :
  (i < length s)%nat ->
  nth i (pd.rolling w agg s) NaN =
    if (i + 1 <? w)%nat then NaN
    else if existsb F.notfinite (pd.window_at w s i) then NaN
         else agg (pd.window_at w s i).
Proof.
  intros Hi. unfold pd.rolling.
  set (g := fun i : nat => _).
  rewrite (nth_indep _ NaN (g 0%nat)) by (rewrite length_map, length_seq; lia).
  rewrite (map_nth g (seq 0 (length s)) 0%nat i).
  rewrite seq_nth by lia. reflexivity.
Qed.

(** A Series shorter than the window has no defined rolling cell. *)
Lemma rolling_short w agg (s : Series) :
  (length s < w)%nat -> all_nan (pd.rolling w agg s).
Proof.
  intros Hs. unfold all_nan, pd.rolling.
  apply Forall_map, Forall_forall. intros i Hi.
  apply in_seq in Hi.
  replace (i + 1 <? w)%nat with true; [reflexivity|].
  symmetry. apply Nat.ltb_lt. lia.
Qed.

Lemma zip_with_nan_l f (a b : Series) :
  (forall y, f NaN y = NaN) -> all_nan a -> all_nan (pd.zip_with f a b).
Proof.
  intros Hf Ha. revert b.
  induction Ha as [|x a Hx _ IH]; intros b; [constructor|].
  destruct b as [|y b]; [constructor|].
  unfold pd.zip_with in *. simpl. constructor.
  - subst x. apply Hf.
  - apply IH.
Qed.

Lemma map_all_nan f (s : Series) :
  f NaN = NaN -> all_nan s -> all_nan (map f s).
Proof.
  intros Hf Hs. unfold all_nan in *. apply Forall_map.
  eapply Forall_impl; [|exact Hs]. intros x ->. exact Hf.
Qed.

(** The window ending at [i] holds every cell from [i + 1 - w] to [i]. *)
Lemma window_at_In w (s : Series) i j :
  (i < length s)%nat -> (j <= i)%nat -> (i < j + w)%nat ->
  In (nth j s NaN) (pd.window_at w s i).
Proof.
  intros Hi Hji Hw. unfold pd.window_at.
  assert (Hk : nth (j - (i + 1 - w)) (firstn w (skipn (i + 1 - w) s)) NaN
               = nth j s NaN).
  { rewrite nth_firstn.
    replace (j - (i + 1 - w) <? w)%nat with true
      by (symmetry; apply Nat.ltb_lt; lia).
    rewrite nth_skipn. f_equal. lia. }
  rewrite <- Hk. apply nth_In.
  rewrite length_firstn, length_skipn. lia.
Qed.

Lemma window_at_length w (s : Series) i :
  (i < length s)%nat -> (w <= i + 1)%nat -> length (pd.window_at w s i) = w.
Proof.
  intros Hi Hw. unfold pd.window_at.
  rewrite length_firstn, length_skipn. lia.
Qed.

Lemma tail_length {A} n (s : list A) :
  length (pd.tail n s) = Nat.min n (length s).
Proof. unfold pd.tail. rewrite length_skipn. lia. Qed.

End PdFacts.


(* ------------------------------------------------------------------ *)
(** ** Indicators on a short history *)

Section ShortHistory.
Context {L : NumLib}.

Lemma rsi_length (series : Series) period :
  length (rsi series period) = length series.
Proof.
  unfold rsi.
  rewrite length_map, zip_with_length, replace_zero_nan_length.
  rewrite !rolling_length, length_map, !where_length, diff_length. lia.
Qed.

Lemma bollinger_length (series : Series) window mult :
  let '(ma, up, lo) := bollinger series window mult in
  length ma = length series /\ length up = length series
  /\ length lo = length series.
Proof.
  unfold bollinger.
  rewrite !zip_with_length, !length_map, !rolling_length. lia.
Qed.

Lemma col_length (df : DataFrame) field : length (col df field) = length df.
Proof. apply length_map. Qed.

Lemma chaikin_mf_length (df : DataFrame) period :
  length (chaikin_mf df period) = length df.
Proof.
  unfold chaikin_mf.
  rewrite zip_with_length, !rolling_length, !zip_with_length,
    replace_zero_nan_length, !zip_with_length, !length_map.
  unfold col_volume. rewrite length_map, !col_length. lia.
Qed.

Lemma rsi_short (series : Series) period :
  (length series < period)%nat -> all_nan (rsi series period).
Proof.
  intros Hs. unfold rsi.
  apply map_all_nan; [reflexivity|].
  apply zip_with_nan_l; [reflexivity|].
  apply rolling_short. now rewrite where_length, diff_length.
Qed.

Lemma bollinger_short (series : Series) window mult :
  (length series < window)%nat ->
  let '(ma, up, lo) := bollinger series window mult in
  all_nan ma /\ all_nan up /\ all_nan lo.
Proof.
  intros Hs. unfold bollinger.
  pose proof (rolling_short window pd.mean series Hs) as Hma.
  repeat split; [exact Hma| |]; apply zip_with_nan_l; auto.
Qed.

Lemma chaikin_mf_short (df : DataFrame) period :
  (length df < period)%nat -> all_nan (chaikin_mf df period).
Proof.
  intros Hs. unfold chaikin_mf.
  apply zip_with_nan_l; [reflexivity|].
  apply rolling_short.
  rewrite !zip_with_length, replace_zero_nan_length, !zip_with_length,
    !length_map.
  unfold col_volume. rewrite length_map, !col_length. lia.
Qed.

(** C7.  A series strictly shorter than the window of an indicator (20 for
    the Bollinger bands and for the Chaikin money flow, 14 for the RSI) gives
    an output series of the same length whose every cell is NaN. *)
Theorem short_history_all_undefined (series : Series) (df : DataFrame) :
  ((length series < 20)%nat ->
   let '(ma, up, lo) := bollinger series 20 2 in
   (length ma = length series /\ all_nan ma)
   /\ (length up = length series /\ all_nan up)
   /\ (length lo = length series /\ all_nan lo))
  /\ ((length series < 14)%nat ->
      length (rsi series 14) = length series /\ all_nan (rsi series 14))
  /\ ((length df < 20)%nat ->
      length (chaikin_mf df 20) = length df /\ all_nan (chaikin_mf df 20)).
Proof.
  split; [|split].
  - intros Hs.
    pose proof (bollinger_length series 20 2) as Hl.
    pose proof (bollinger_short series 20 2 Hs) as Hn.
    destruct (bollinger series 20 2) as [[ma up] lo].
    tauto.
  - intros Hs. split; [apply rsi_length | now apply rsi_short].
  - intros Hs. split; [apply chaikin_mf_length | now apply chaikin_mf_short].
Qed.

End ShortHistory.


(* ------------------------------------------------------------------ *)
(** ** Chaikin money flow and a bar without range *)

Section MoneyFlow.
Context {L : NumLib}.

Lemma col_nth (df : DataFrame) field j b :
  nth_error df j = Some b -> nth j (col df field) NaN = Fin (field b).
Proof.
  intros H. unfold col.
  apply (map_nth_error (fun b => Fin (field b))) in H.
  now apply nth_error_nth.
Qed.

Lemma nth_error_lt {A} (l : list A) j b :
  nth_error l j = Some b -> (j < length l)%nat.
Proof. intros H. apply nth_error_Some. congruence. Qed.

Lemma is_zero_sub_same (h l : Q) :
  h == l -> F.is_zero (F.sub (Fin h) (Fin l)) = true.
Proof.
  intros H. unfold F.is_zero, F.sub, F.neg, F.add. apply Qeq_bool_iff.
  rewrite Qred_correct, H. ring.
Qed.

(** The money-flow volume of a bar with [High = Low] is NaN. *)
Lemma mf_vol_nan (df : DataFrame) j b :
  nth_error df j = Some b -> High b == Low b ->
  let high := col df High in
  let low := col df Low in
  let close := col df Close in
  let volume := map F.of_Z (col_volume df) in
  nth j
    (pd.zip_with F.mul
       (pd.zip_with F.div
          (pd.zip_with F.sub (pd.zip_with F.sub close low)
                             (pd.zip_with F.sub high close))
          (pd.replace_zero_nan (pd.zip_with F.sub high low)))
       volume) NaN = NaN.
Proof.
  intros Hb Heq high low close volume.
  pose proof (nth_error_lt _ _ _ Hb) as Hj.
  assert (Hlen : forall f, length (col df f) = length df) by (intro; apply col_length).
  assert (Hv : length volume = length df)
    by (unfold volume, col_volume; now rewrite !length_map).
  rewrite zip_with_nth;
    [| rewrite !zip_with_length, replace_zero_nan_length, !zip_with_length;
       unfold close, low, high; rewrite !Hlen; lia
     | lia].
  rewrite zip_with_nth;
    [| rewrite !zip_with_length; unfold close, low, high; rewrite !Hlen; lia
     | rewrite replace_zero_nan_length, zip_with_length;
       unfold low, high; rewrite !Hlen; lia].
  assert (Hz : nth j (pd.replace_zero_nan (pd.zip_with F.sub high low)) NaN = NaN).
  { unfold pd.replace_zero_nan.
    rewrite (nth_indep _ NaN ((fun x => if F.is_zero x then NaN else x) NaN))
      by (rewrite length_map, zip_with_length; unfold low, high;
          rewrite !Hlen; lia).
    rewrite (map_nth (fun x => if F.is_zero x then NaN else x)).
    rewrite zip_with_nth by (unfold low, high; rewrite Hlen; lia).
    unfold high, low. rewrite (col_nth df High j b Hb), (col_nth df Low j b Hb).
    now rewrite is_zero_sub_same. }
  rewrite Hz.
  destruct (nth j (pd.zip_with F.sub _ _) NaN); reflexivity.
Qed.

(** C9.  If bar [j] has [High = Low], the Chaikin money flow is NaN at every
    position [i] whose trailing 20-bar window contains [j], that is for
    [j <= i < j + 20]. *)
Theorem chaikin_mf_poisoned_by_flat_bar (df : DataFrame) (j i : nat) (b : Bar) :
  nth_error df j = Some b ->
  High b == Low b ->
  (j <= i)%nat -> (i < j + 20)%nat -> (i < length df)%nat ->
  iloc (chaikin_mf df 20) i = NaN.
Proof.
  intros Hb Heq Hji Hi Hlen.
  unfold iloc, chaikin_mf.
  set (mf_vol := pd.zip_with F.mul _ _).
  assert (Hmv : length mf_vol = length df).
  { unfold mf_vol.
    rewrite !zip_with_length, replace_zero_nan_length, !zip_with_length,
      !length_map.
    unfold col_volume. rewrite length_map, !col_length. lia. }
  rewrite zip_with_nth;
    [| rewrite rolling_length; lia
     | rewrite rolling_length, length_map; unfold col_volume;
       rewrite length_map; lia].
  rewrite rolling_nth by lia.
  destruct (i + 1 <? 20)%nat; [reflexivity|].
  replace (existsb F.notfinite (pd.window_at 20 mf_vol i)) with true; [reflexivity|].
  symmetry. apply existsb_exists. exists NaN. split; [|reflexivity].
  rewrite <- (mf_vol_nan df j b Hb Heq).
  apply window_at_In; lia.
Qed.

End MoneyFlow.


(* ------------------------------------------------------------------ *)
(** ** On-balance volume *)

Section OnBalanceVolume.

Lemma obv_run_S df n :
  obv_run df (S n) = obv_step df (obv_run df n) (S n).
Proof. unfold obv_run. now rewrite seq_S, fold_left_app. Qed.

(** Every turn appends exactly one value. *)
Lemma obv_step_shape df vals i :
  exists v, obv_step df vals i = vals ++ [v].
Proof.
  unfold obv_step.
  destruct (F.gtb _ _); [eauto|]. destruct (F.ltb _ _); eauto.
Qed.

Lemma obv_run_length df n : length (obv_run df n) = S n.
Proof.
  induction n as [|n IH]; [reflexivity|].
  rewrite obv_run_S.
  destruct (obv_step_shape df (obv_run df n) (S n)) as [v ->].
  rewrite length_app, IH. simpl. lia.
Qed.

(** Values already written are never changed by later turns. *)
Lemma obv_run_prefix df n m k :
  (k <= n)%nat -> (n <= m)%nat ->
  nth k (obv_run df m) 0%Z = nth k (obv_run df n) 0%Z.
Proof.
  intros Hk Hnm. induction Hnm as [|m Hnm IH]; [reflexivity|].
  rewrite obv_run_S.
  destruct (obv_step_shape df (obv_run df m) (S m)) as [v ->].
  rewrite app_nth1; [exact IH|]. rewrite obv_run_length. lia.
Qed.

Lemma last_nth_length (l : list Z) :
  last l 0%Z = nth (length l - 1) l 0%Z.
Proof.
  destruct l as [|x l] using rev_ind; [reflexivity|].
  rewrite last_last, length_app. simpl.
  rewrite app_nth2 by lia.
  replace (length l + 1 - 1 - length l)%nat with 0%nat by lia. reflexivity.
Qed.

Lemma gtb_Fin (a b : Q) : F.gtb (Fin a) (Fin b) = true <-> b < a.
Proof.
  unfold F.gtb, F.ltb, F.Qlt_bool. rewrite negb_true_iff.
  split.
  - intros H. apply Qnot_le_lt. intros Hle.
    apply Qle_bool_iff in Hle. congruence.
  - intros H. destruct (Qle_bool a b) eqn:E; [|reflexivity].
    apply Qle_bool_iff in E. exfalso. lra.
Qed.

Lemma ltb_Fin (a b : Q) : F.ltb (Fin a) (Fin b) = true <-> a < b.
Proof. apply (gtb_Fin b a). Qed.

(** The value appended by turn [i], by the three cases of the loop. *)
Lemma obv_step_value df vals i prev cur :
  nth_error df (i - 1) = Some prev -> nth_error df i = Some cur ->
  let v := nth (length vals) (obv_step df vals i) 0%Z in
  (Close prev < Close cur -> v = np.int64_wrap (last vals 0 + Volume cur)%Z)
  /\ (Close cur < Close prev -> v = np.int64_wrap (last vals 0 - Volume cur)%Z)
  /\ (Close cur == Close prev -> v = last vals 0%Z).
Proof.
  intros Hp Hc. unfold obv_step, iloc.
  rewrite (col_nth df Close _ _ Hp), (col_nth df Close _ _ Hc).
  assert (Hv : nth i (col_volume df) 0%Z = Volume cur).
  { unfold col_volume. apply nth_error_nth.
    now apply (map_nth_error Volume). }
  rewrite Hv.
  destruct (F.gtb (Fin (Close cur)) (Fin (Close prev))) eqn:Eg;
    [| destruct (F.ltb (Fin (Close cur)) (Fin (Close prev))) eqn:El];
    cbn zeta; rewrite app_nth2, Nat.sub_diag by lia; simpl.
  - apply gtb_Fin in Eg. repeat split; intros; try reflexivity; lra.
  - apply ltb_Fin in El. repeat split; intros; try reflexivity; lra.
  - assert (Hng : ~ Close prev < Close cur)
      by (intro Hlt; apply gtb_Fin in Hlt; congruence).
    assert (Hnl : ~ Close cur < Close prev)
      by (intro Hlt; apply ltb_Fin in Hlt; congruence).
    repeat split; intros; try reflexivity; tauto.
Qed.

Lemma int64_wrap_small (z : Z) : in_int64 z -> np.int64_wrap z = z.
Proof.
  unfold in_int64, np.int64_wrap. intros Hz.
  rewrite Z.mod_small by lia. lia.
Qed.

(** C3 as amended.  For a non-empty table, [obv] returns a series with one
    value per bar; the value at position 0 is 0, and at every later position
    [i] it is the previous value plus the volume of bar [i] if the close
    rose, minus that volume if the close fell, each formed in int64
    arithmetic (wrapping around at [2^63]), and the previous value if the
    close is unchanged.  Whenever the exact sum or difference lies in the
    int64 range, the value is that exact sum or difference. *)
Theorem obv_signed_cumulative_sum (df : DataFrame) :
  df <> [] ->
  exists o,
    obv df = Some o
    /\ length o = length df
    /\ nth 0 o 0%Z = 0%Z
    /\ forall i prev cur,
        (1 <= i)%nat ->
        nth_error df (i - 1) = Some prev -> nth_error df i = Some cur ->
        (Close prev < Close cur ->
         nth i o 0%Z = np.int64_wrap (nth (i - 1) o 0 + Volume cur)%Z
         /\ (in_int64 (nth (i - 1) o 0 + Volume cur)%Z ->
             nth i o 0%Z = (nth (i - 1) o 0 + Volume cur)%Z))
        /\ (Close cur < Close prev ->
            nth i o 0%Z = np.int64_wrap (nth (i - 1) o 0 - Volume cur)%Z
            /\ (in_int64 (nth (i - 1) o 0 - Volume cur)%Z ->
                nth i o 0%Z = (nth (i - 1) o 0 - Volume cur)%Z))
        /\ (Close cur == Close prev -> nth i o 0%Z = nth (i - 1) o 0%Z).
Proof.
  intros Hne.
  assert (Hlen : length (obv_vals df) = length df).
  { unfold obv_vals. fold (obv_run df (length df - 1)).
    rewrite obv_run_length. destruct df; [congruence|simpl; lia]. }
  exists (obv_vals df). split; [|split; [exact Hlen|split]].
  - unfold obv. rewrite Hlen, Nat.eqb_refl. reflexivity.
  - unfold obv_vals. fold (obv_run df (length df - 1)).
    now rewrite (obv_run_prefix df 0 (length df - 1) 0) by lia.
  - intros i prev cur Hi Hp Hc.
    pose proof (nth_error_lt _ _ _ Hc) as Hil.
    unfold obv_vals. fold (obv_run df (length df - 1)).
    rewrite (obv_run_prefix df i (length df - 1) i) by lia.
    rewrite (obv_run_prefix df (i - 1) (length df - 1) (i - 1)) by lia.
    destruct i as [|i]; [lia|].
    replace (S i - 1)%nat with i in * by lia.
    rewrite obv_run_S.
    pose proof (obv_step_value df (obv_run df i) (S i) prev cur) as Hs.
    replace (S i - 1)%nat with i in Hs by lia.
    specialize (Hs Hp Hc). cbn zeta in Hs.
    rewrite obv_run_length in Hs.
    rewrite last_nth_length, obv_run_length in Hs.
    replace (S i - 1)%nat with i in Hs by lia.
    destruct Hs as (Hup & Hdown & Hsame).
    split; [|split; [|exact Hsame]].
    + intros Hlt. rewrite (Hup Hlt). split; [reflexivity|].
      apply int64_wrap_small.
    + intros Hlt. rewrite (Hdown Hlt). split; [reflexivity|].
      apply int64_wrap_small.
Qed.

End OnBalanceVolume.


(* ------------------------------------------------------------------ *)
(** ** MACD *)

Section Macd.

Lemma ewm_loop_length alpha w old (vals : Series) :
  length (pd.ewm_loop alpha w old vals) = length vals.
Proof.
  revert w old.
  induction vals as [|y vals IH]; intros w old; [reflexivity|].
  simpl.
  destruct (F.isnan w); [simpl; now rewrite IH|].
  destruct (F.isnan y); simpl; now rewrite IH.
Qed.

Lemma ewm_mean_length span (s : Series) :
  length (pd.ewm_mean span s) = length s.
Proof.
  destruct s as [|x s]; [reflexivity|].
  unfold pd.ewm_mean. simpl. now rewrite ewm_loop_length.
Qed.

(** With no gap before it, a finite observation moves a finite average to a
    finite average: the divisor [(1 - alpha) + alpha] is 1. *)
Lemma ewm_update_fin (alpha w x : Q) :
  exists q,
    F.div (F.add (F.mul (Fin (Qred (1 * (1 - alpha)))) (Fin w))
                 (F.mul (Fin alpha) (Fin x)))
          (Fin (Qred (Qred (1 * (1 - alpha)) + alpha))) = Fin q.
Proof.
  unfold F.mul, F.add, F.div.
  replace (Qeq_bool (Qred (Qred (1 * (1 - alpha)) + alpha)) 0) with false;
    [eauto|].
  symmetry. apply not_true_iff_false. intros H.
  apply Qeq_bool_iff in H. rewrite !Qred_correct in H. lra.
Qed.

Lemma ewm_loop_fin (alpha w : Q) (vals : Series) :
  all_fin vals -> all_fin (pd.ewm_loop alpha (Fin w) 1 vals).
Proof.
  intros Hv. revert w.
  induction Hv as [|x vals Hx _ IH]; intros w; [constructor|].
  destruct x as [| | |x]; try discriminate.
  cbn [pd.ewm_loop F.isnan].
  destruct (ewm_update_fin alpha w x) as [q ->].
  constructor; [reflexivity | apply IH].
Qed.

Lemma ewm_mean_fin span (s : Series) :
  all_fin s -> all_fin (pd.ewm_mean span s).
Proof.
  intros Hs. destruct Hs as [|x s Hx Hs]; [constructor|].
  destruct x as [| | |x]; try discriminate.
  simpl. constructor; [reflexivity | now apply ewm_loop_fin].
Qed.

Lemma zip_with_fin f (a b : Series) :
  (forall x y, exists q, f (Fin x) (Fin y) = Fin q) ->
  all_fin a -> all_fin b -> all_fin (pd.zip_with f a b).
Proof.
  intros Hf Ha. revert b.
  induction Ha as [|x a Hx _ IH]; intros b Hb; [constructor|].
  destruct Hb as [|y b Hy Hb]; [constructor|].
  unfold pd.zip_with in *. simpl. constructor; [|now apply IH].
  destruct x, y; try discriminate.
  destruct (Hf q q0) as [r ->]. reflexivity.
Qed.

Lemma sub_Fin (x y : Q) : exists q, F.sub (Fin x) (Fin y) = Fin q.
Proof. unfold F.sub, F.neg, F.add. eauto. Qed.

Lemma col_all_fin (df : DataFrame) field : all_fin (col df field).
Proof. unfold all_fin, col. apply Forall_map, Forall_forall. reflexivity. Qed.

Lemma all_fin_nth (s : Series) i :
  all_fin s -> (i < length s)%nat -> exists q, nth i s NaN = Fin q.
Proof.
  intros Hs Hi.
  pose proof (proj1 (Forall_forall _ _) Hs _ (nth_In s NaN Hi)) as H.
  destruct (nth i s NaN); try discriminate. eauto.
Qed.

(** C5.  On the close column of any table, the MACD line, the signal line
    and the histogram have one cell per bar, every cell from position 0 on
    is a finite number, and the histogram cell is the MACD cell minus the
    signal cell. *)
Theorem macd_defined_everywhere (df : DataFrame) (i : nat) :
  (i < length df)%nat ->
  let '(macd_line, signal_line, hist) := macd (col df Close) 12 26 9 in
  (length macd_line = length df /\ length signal_line = length df
   /\ length hist = length df)
  /\ exists m s h,
      iloc macd_line i = Fin m /\ iloc signal_line i = Fin s
      /\ iloc hist i = Fin h
      /\ iloc hist i = F.sub (iloc macd_line i) (iloc signal_line i)
      /\ h == m - s.
Proof.
  intros Hi. unfold macd.
  set (macd_line := pd.zip_with F.sub _ _).
  set (signal_line := pd.ewm_mean 9 macd_line).
  assert (Hlm : length macd_line = length df).
  { unfold macd_line.
    rewrite zip_with_length, !ewm_mean_length, col_length. lia. }
  assert (Hls : length signal_line = length df).
  { unfold signal_line. now rewrite ewm_mean_length. }
  assert (Hfm : all_fin macd_line).
  { apply zip_with_fin; [exact sub_Fin | |];
      apply ewm_mean_fin, col_all_fin. }
  assert (Hfs : all_fin signal_line) by now apply ewm_mean_fin.
  split; [rewrite zip_with_length; lia|].
  destruct (all_fin_nth macd_line i Hfm ltac:(lia)) as [m Hm].
  destruct (all_fin_nth signal_line i Hfs ltac:(lia)) as [s Hs].
  exists m, s, (Qred (m + - s)). unfold iloc.
  rewrite zip_with_nth by lia. rewrite Hm, Hs.
  repeat split. rewrite Qred_correct. ring.
Qed.

End Macd.


(* ------------------------------------------------------------------ *)
(** ** Cells that are never negative *)

Section NonNegative.
Context {L : NumLib}.

Lemma Qlt_bool_true (a b : Q) : F.Qlt_bool a b = true <-> a < b.
Proof. apply (ltb_Fin a b). Qed.

Lemma Qlt_bool_false (a b : Q) : F.Qlt_bool a b = false <-> b <= a.
Proof.
  unfold F.Qlt_bool. rewrite negb_false_iff. apply Qle_bool_iff.
Qed.

Lemma Qeq_bool_false (a b : Q) : ~ a == b -> Qeq_bool a b = false.
Proof.
  intros H. apply not_true_iff_false. intro E. now apply Qeq_bool_iff in E.
Qed.

Lemma gain_cell_nneg (d : float64) :
  nneg (if F.gtb d (Fin 0) then d else Fin 0).
Proof.
  destruct d as [| | |q]; simpl; try lra; try exact I.
  destruct (F.Qlt_bool 0 q) eqn:E; simpl; [|lra].
  apply Qlt_bool_true in E. lra.
Qed.

Lemma loss_cell_nneg (d : float64) :
  nneg (F.neg (if F.ltb d (Fin 0) then d else Fin 0)).
Proof.
  destruct d as [| | |q]; simpl; try lra; try exact I.
  destruct (F.Qlt_bool q 0) eqn:E; simpl; [|lra].
  apply Qlt_bool_true in E. lra.
Qed.

Lemma add_nneg (x y : float64) : nneg x -> nneg y -> nneg (F.add x y).
Proof.
  destruct x, y; cbn [F.add nneg]; try tauto.
  intros Hx Hy. rewrite Qred_correct. lra.
Qed.

Lemma sum_nneg (w : list float64) : Forall nneg w -> nneg (pd.sum w).
Proof.
  induction 1 as [|x w Hx _ IH]; cbn [pd.sum fold_right nneg]; [lra|].
  now apply add_nneg.
Qed.

Lemma div_count_nneg (x : float64) (n : nat) :
  nneg x -> nneg (F.div x (F.of_nat n)).
Proof.
  assert (Hn : 0 <= inject_Z (Z.of_nat n)).
  { change 0 with (inject_Z 0). rewrite <- Zle_Qle. lia. }
  unfold F.of_nat, F.of_Z.
  destruct x as [| | |a]; cbn [F.div nneg]; try tauto.
  - intros _. replace (F.Qlt_bool _ 0) with false; [exact I|].
    symmetry. now apply Qlt_bool_false.
  - intros Ha. destruct (Qeq_bool _ 0) eqn:E.
    + destruct (Qcompare a 0) eqn:C; try exact I.
      apply Qlt_alt in C. lra.
    + cbn [nneg]. rewrite Qred_correct.
      apply Qle_shift_div_l; [|lra].
      assert (~ inject_Z (Z.of_nat n) == 0).
      { intro H. apply Qeq_bool_iff in H. congruence. }
      lra.
Qed.

Lemma mean_nneg (w : list float64) : Forall nneg w -> nneg (pd.mean w).
Proof. intros H. unfold pd.mean. now apply div_count_nneg, sum_nneg. Qed.

Lemma sqrt_nneg (x : float64) : nneg (np.sqrt x).
Proof.
  destruct x as [| | |q]; cbn [np.sqrt nneg]; try exact I.
  destruct (F.Qlt_bool q 0); cbn [nneg]; [exact I|].
  rewrite Qred_correct. apply np_sqrt_nonneg_ge0.
Qed.

Lemma window_at_Forall (P : float64 -> Prop) w (s : Series) i :
  Forall P s -> Forall P (pd.window_at w s i).
Proof.
  intros Hs. unfold pd.window_at.
  rewrite <- (firstn_skipn (i + 1 - w) s) in Hs.
  apply Forall_app in Hs as [_ Hs].
  rewrite <- (firstn_skipn w (skipn (i + 1 - w) s)) in Hs.
  now apply Forall_app in Hs as [Hs _].
Qed.

(** A rolling aggregate whose value on a window is in [P] whenever the
    window is in [Q], applied to a Series in [Q], is in [P] or NaN. *)
Lemma rolling_Forall (P Q : float64 -> Prop) w agg (s : Series) :
  P NaN -> (forall win, Forall Q win -> P (agg win)) ->
  Forall Q s -> Forall P (pd.rolling w agg s).
Proof.
  intros Hnan Hagg Hs. unfold pd.rolling.
  apply Forall_map, Forall_forall. intros i _.
  destruct (i + 1 <? w)%nat; [exact Hnan|].
  destruct (existsb F.notfinite _); [exact Hnan|].
  now apply Hagg, window_at_Forall.
Qed.

Lemma zip_with_Forall (P Q R : float64 -> Prop) f (a b : Series) :
  (forall x y, P x -> Q y -> R (f x y)) ->
  Forall P a -> Forall Q b -> Forall R (pd.zip_with f a b).
Proof.
  intros Hf Ha. revert b.
  induction Ha as [|x a Hx _ IH]; intros b Hb; [constructor|].
  destruct Hb as [|y b Hy Hb]; [constructor|].
  unfold pd.zip_with in *. simpl. constructor; [now apply Hf | now apply IH].
Qed.

End NonNegative.


(* ------------------------------------------------------------------ *)
(** ** RSI *)

Section Rsi.
Context {L : NumLib}.

Lemma rsi_unfold (series : Series) period :
  rsi series period =
    map rsi_of_rs
      (pd.zip_with F.div (rsi_avg_gain series period)
         (pd.replace_zero_nan (rsi_avg_loss series period))).
Proof. reflexivity. Qed.

Lemma rsi_avg_gain_nneg series period :
  Forall nneg (rsi_avg_gain series period).
Proof.
  apply (rolling_Forall nneg nneg); [exact I | exact mean_nneg |].
  unfold pd.where_. apply Forall_map, Forall_forall.
  intros d _. apply gain_cell_nneg.
Qed.

Lemma rsi_avg_loss_nneg series period :
  Forall nneg (rsi_avg_loss series period).
Proof.
  apply (rolling_Forall nneg nneg); [exact I | exact mean_nneg |].
  unfold pd.where_. rewrite map_map. apply Forall_map, Forall_forall.
  intros d _. apply loss_cell_nneg.
Qed.

Lemma replace_zero_nan_posv (s : Series) :
  Forall nneg s -> Forall posv (pd.replace_zero_nan s).
Proof.
  intros H. unfold pd.replace_zero_nan. apply Forall_map.
  eapply Forall_impl; [|exact H].
  intros [| | |q]; cbn [F.is_zero nneg posv]; try tauto.
  intros Hq. destruct (Qeq_bool q 0) eqn:E; cbn [posv]; [exact I|].
  assert (~ q == 0) by (intro Hz; apply Qeq_bool_iff in Hz; congruence).
  lra.
Qed.

Lemma div_nneg_posv (x y : float64) : nneg x -> posv y -> nneg (F.div x y).
Proof.
  destruct x as [| | |a], y as [| | |b]; cbn [F.div nneg posv]; try tauto;
    try lra.
  - intros _ Hb. replace (F.Qlt_bool b 0) with false; [exact I|].
    symmetry. apply Qlt_bool_false. lra.
  - intros Ha Hb. rewrite Qeq_bool_false by lra. cbn [nneg].
    rewrite Qred_correct. apply Qle_shift_div_l; lra.
Qed.

Lemma rsi_of_rs_percent (r : float64) : nneg r -> percent (rsi_of_rs r).
Proof.
  unfold rsi_of_rs.
  destruct r as [| | |q]; cbn [nneg F.add F.div F.sub F.neg percent];
    try tauto.
  - intros _. rewrite Qred_correct. lra.
  - intros Hq.
    assert (H1 : 1 <= Qred (1 + q)) by (rewrite Qred_correct; lra).
    rewrite Qeq_bool_false by lra.
    cbn [F.neg F.add percent]. rewrite !Qred_correct.
    rewrite Qred_correct in H1.
    assert (Hd : 0 <= 100 / (1 + q) <= 100).
    { split.
      - apply Qle_shift_div_l; lra.
      - apply Qle_shift_div_r; lra. }
    lra.
Qed.

Lemma rsi_percent (series : Series) period :
  Forall percent (rsi series period).
Proof.
  rewrite rsi_unfold. apply Forall_map.
  eapply Forall_impl; [exact rsi_of_rs_percent|].
  apply (zip_with_Forall nneg posv nneg); [exact div_nneg_posv | |].
  - apply rsi_avg_gain_nneg.
  - apply replace_zero_nan_posv, rsi_avg_loss_nneg.
Qed.

Lemma map_nth_nan (f : float64 -> float64) (s : Series) i :
  f NaN = NaN -> nth i (map f s) NaN = f (nth i s NaN).
Proof. intros H. rewrite <- H at 1. apply map_nth. Qed.

Lemma div_nan_r (x : float64) : F.div x NaN = NaN.
Proof. destruct x; reflexivity. Qed.

(** C4.  Every cell of RSI(14) that is not NaN is a finite value between 0
    and 100; and where the rolling mean of the losses is a zero, the RSI cell
    is NaN. *)
Theorem rsi_bounded_or_undefined (series : Series) (i : nat) :
  (iloc (rsi series 14) i <> NaN ->
   exists v, iloc (rsi series 14) i = Fin v /\ 0 <= v <= 100)
  /\ (F.is_zero (iloc (rsi_avg_loss series 14) i) = true ->
      iloc (rsi series 14) i = NaN).
Proof.
  unfold iloc. split.
  - intros Hdef.
    destruct (Nat.lt_ge_cases i (length (rsi series 14))) as [Hi|Hi];
      [|now rewrite nth_overflow in Hdef].
    pose proof (proj1 (Forall_forall _ _) (rsi_percent series 14) _
                  (nth_In _ NaN Hi)) as Hp.
    destruct (nth i (rsi series 14) NaN) as [| | |v]; cbn [percent] in Hp;
      try tauto.
    eauto.
  - intros Hz.
    destruct (Nat.lt_ge_cases i (length series)) as [Hi|Hi].
    + rewrite rsi_unfold, map_nth_nan by reflexivity.
      rewrite zip_with_nth.
      * unfold pd.replace_zero_nan at 1. rewrite map_nth_nan by reflexivity.
        rewrite Hz, div_nan_r. reflexivity.
      * unfold rsi_avg_gain.
        now rewrite rolling_length, where_length, diff_length.
      * unfold rsi_avg_loss.
        now rewrite replace_zero_nan_length, rolling_length, length_map,
          where_length, diff_length.
    + rewrite nth_overflow in Hz; [discriminate|].
      unfold rsi_avg_loss.
      now rewrite rolling_length, length_map, where_length, diff_length.
Qed.

End Rsi.


(* ------------------------------------------------------------------ *)
(** ** Bollinger bands *)

Section Bollinger.
Context {L : NumLib}.

Lemma rolling_std_nneg w (s : Series) : Forall nneg (pd.rolling w pd.std s).
Proof.
  apply (rolling_Forall nneg (fun _ => True)); [exact I | |].
  - intros win _. apply sqrt_nneg.
  - apply Forall_forall. trivial.
Qed.

Lemma Forall_nth_nan (P : float64 -> Prop) (s : Series) i :
  P NaN -> Forall P s -> P (nth i s NaN).
Proof.
  intros Hn Hs.
  destruct (Nat.lt_ge_cases i (length s)) as [Hi|Hi].
  - exact (proj1 (Forall_forall _ _) Hs _ (nth_In _ NaN Hi)).
  - now rewrite nth_overflow.
Qed.

(** The two bands around a mean [m], for a deviation [sd] that is never
    negative. *)
Lemma bands_order (m sd : float64) :
  nneg sd ->
  let up := F.add m (F.mul (Fin 2) sd) in
  let lo := F.sub m (F.mul (Fin 2) sd) in
  m <> NaN -> up <> NaN -> lo <> NaN ->
  F.leb lo m = true /\ F.leb m up = true.
Proof.
  destruct sd as [| | |s], m as [| | |m];
    cbn [nneg F.mul F.add F.sub F.neg F.leb]; intros Hs Hm Hu Hl;
    try tauto; try congruence.
  all: try (change (F.inf_times true 2) with PInf in *;
            cbn [F.add F.neg F.leb] in *; first [tauto | congruence]).
  split; apply Qle_bool_iff; rewrite !Qred_correct; lra.
Qed.

(** C6.  At every position where the moving average, the upper band and
    the lower band of [bollinger(series, 20, 2)] are all three not NaN, the
    lower band is at most the average and the average is at most the upper
    band. *)
Theorem bollinger_bands_ordered (series ma up lo : Series) (i : nat) :
  bollinger series 20 2 = (ma, up, lo) ->
  iloc ma i <> NaN -> iloc up i <> NaN -> iloc lo i <> NaN ->
  F.leb (iloc lo i) (iloc ma i) = true /\ F.leb (iloc ma i) (iloc up i) = true.
Proof.
  unfold bollinger, iloc. intros E. injection E as <- <- <-.
  set (ma := pd.rolling 20 pd.mean series).
  set (sd := pd.rolling 20 pd.std series).
  intros Hm Hu Hl.
  assert (Hi : (i < length series)%nat).
  { destruct (Nat.lt_ge_cases i (length series)) as [Hi|Hi]; [exact Hi|].
    exfalso. apply Hm. apply nth_overflow. unfold ma.
    now rewrite rolling_length. }
  assert (Hlm : length ma = length series) by apply rolling_length.
  assert (Hls : length (map (F.mul (Fin 2)) sd) = length series)
    by (rewrite length_map; apply rolling_length).
  rewrite !zip_with_nth in * by lia.
  rewrite map_nth_nan in * by reflexivity.
  apply bands_order; try assumption.
  apply Forall_nth_nan; [exact I | apply rolling_std_nneg].
Qed.

End Bollinger.


(* ------------------------------------------------------------------ *)
(** ** The run on an empty and on a non-empty table *)

Section RunFacts.
Context {L : NumLib}.

Lemma to_int_of_int64 (z : Z) :
  F.to_int (F.of_int64 z) = Some (F.round_to_53_bits z).
Proof.
  unfold F.to_int, F.of_int64. f_equal.
  destruct (Qle_bool 0 (inject_Z (F.round_to_53_bits z))).
  - apply Qfloor_Z.
  - change (- inject_Z (F.round_to_53_bits z))
      with (inject_Z (- F.round_to_53_bits z)).
    rewrite Qfloor_Z. lia.
Qed.

Lemma obv_returns (df : DataFrame) :
  df <> [] -> obv df = Some (obv_vals df).
Proof.
  intros Hne. unfold obv.
  replace (length (obv_vals df)) with (length df); [now rewrite Nat.eqb_refl|].
  unfold obv_vals. fold (obv_run df (length df - 1)).
  rewrite obv_run_length. destruct df; [congruence | simpl; lia].
Qed.

(** On a non-empty table the run returns normally and writes both files;
    the levels and the volatility entry of the document are as computed by
    [support], [resistance] and [hv20]. *)
Lemma main_returns (df : DataFrame) (files : Files) :
  df <> [] ->
  exists payload frame,
    main df files =
      (Returned,
       {| rhm_latest_json := Some payload;
          rhm_prices_last120_csv := Some frame |})
    /\ levels payload =
         {| support_hint := Some (F.round (support df) 2);
            resistance_hint := Some (F.round (resistance df) 2) |}
    /\ hv20_proxy (volatility payload) =
         (if truthy (hv20 df)
          then option_map (fun x => F.round x 4) (hv20 df) else None).
Proof.
  intros Hne. pose proof (obv_returns df Hne) as Ho.
  destruct df as [|b df']; [congruence|].
  unfold main, bollinger, macd. rewrite Ho. cbv zeta.
  rewrite to_int_of_int64.
  eexists. eexists. split; [reflexivity|]. split; reflexivity.
Qed.

(** C8.  On an empty table the run ends with [SystemExit] and leaves the
    files as they were: no document and no table is written.  On every
    non-empty table the run returns normally with both files written, so the
    empty table is the only input on which the run fails. *)
Theorem empty_table_is_the_only_failure (df : DataFrame) (files : Files) :
  match df with
  | [] => main df files = (SystemExit "Keine Daten geladen.", files)
  | _ :: _ =>
      exists payload frame,
        main df files =
          (Returned,
           {| rhm_latest_json := Some payload;
              rhm_prices_last120_csv := Some frame |})
  end.
Proof.
  destruct df as [|b df']; [reflexivity|].
  destruct (main_returns (b :: df') files) as (p & f & H & _); [discriminate|].
  eauto.
Qed.

End RunFacts.


(* ------------------------------------------------------------------ *)
(** ** Support and resistance *)

Section LevelFacts.
Context {L : NumLib}.

Lemma tail_tail {A} (a b : nat) (l : list A) :
  (a <= b)%nat -> pd.tail a (pd.tail b l) = pd.tail a l.
Proof.
  intros Hab. unfold pd.tail.
  rewrite skipn_skipn, length_skipn. f_equal. lia.
Qed.

Lemma col_tail (df : DataFrame) field n :
  col (pd.tail n df) field = pd.tail n (col df field).
Proof. unfold col, pd.tail. now rewrite skipn_map, length_map. Qed.

Lemma iloc_last_tail1 (s : Series) :
  pd.iloc_last (pd.tail 1 s) = last s NaN.
Proof.
  unfold pd.iloc_last, pd.tail.
  destruct s as [|x s] using rev_ind; [reflexivity|].
  rewrite length_app, last_last. simpl length.
  replace (length s + 1 - 1)%nat with (length s) by lia.
  rewrite skipn_app, skipn_all, Nat.sub_diag. reflexivity.
Qed.

(** The last cell of a rolling aggregate over a Series at least as long as
    the window is computed from the last [w] cells. *)
Lemma rolling_last w agg (s : Series) :
  (1 <= w)%nat -> (w <= length s)%nat ->
  last (pd.rolling w agg s) NaN =
    if existsb F.notfinite (pd.tail w s) then NaN else agg (pd.tail w s).
Proof.
  intros H1 Hw. unfold pd.rolling.
  destruct (length s) as [|n] eqn:En; [lia|].
  rewrite seq_S, map_app. cbn [map]. rewrite last_last.
  replace (0 + n + 1 <? w)%nat with false
    by (symmetry; apply Nat.ltb_ge; lia).
  assert (Hwin : pd.window_at w s (0 + n) = pd.tail w s).
  { unfold pd.window_at, pd.tail. rewrite En.
    replace (0 + n + 1 - w)%nat with (S n - w)%nat by lia.
    apply firstn_all2. rewrite length_skipn. lia. }
  now rewrite Hwin.
Qed.

Lemma all_fin_no_nan (s : Series) : all_fin s -> existsb F.notfinite s = false.
Proof.
  induction 1 as [|x s Hx _ IH]; [reflexivity|].
  destruct x; try discriminate. simpl. exact IH.
Qed.

Lemma all_nan_last (s : Series) : all_nan s -> last s NaN = NaN.
Proof.
  induction 1 as [|x s Hx Hs IH]; [reflexivity|].
  subst x. destruct s; [reflexivity|]. exact IH.
Qed.

Lemma Qle_bool_false (a b : Q) : Qle_bool a b = false -> b <= a.
Proof.
  intros E. destruct (Qlt_le_dec a b) as [Hlt|Hge]; [|exact Hge].
  exfalso. apply Qlt_le_weak, Qle_bool_iff in Hlt. congruence.
Qed.

Lemma fold_min_Fin (qs : list Q) (acc : Q) :
  exists q,
    fold_left F.min (map Fin qs) (Fin acc) = Fin q
    /\ (q = acc \/ In q qs) /\ q <= acc /\ Forall (fun x => q <= x) qs.
Proof.
  revert acc. induction qs as [|x qs IH]; intros acc.
  - exists acc. split; [reflexivity|]. split; [now left|].
    split; [lra | constructor].
  - cbn [map fold_left]. unfold F.min at 2. cbn [F.leb].
    destruct (Qle_bool acc x) eqn:E.
    + apply Qle_bool_iff in E.
      destruct (IH acc) as (q & Hq & Hin & Hle & Hall).
      exists q. split; [exact Hq|]. split; [|split].
      * destruct Hin; [now left | right; now right].
      * exact Hle.
      * constructor; [lra | exact Hall].
    + apply Qle_bool_false in E.
      destruct (IH x) as (q & Hq & Hin & Hle & Hall).
      exists q. split; [exact Hq|]. split; [|split].
      * right. destruct Hin; [now left | now right].
      * lra.
      * constructor; [lra | exact Hall].
Qed.

Lemma fold_max_Fin (qs : list Q) (acc : Q) :
  exists q,
    fold_left F.max (map Fin qs) (Fin acc) = Fin q
    /\ (q = acc \/ In q qs) /\ acc <= q /\ Forall (fun x => x <= q) qs.
Proof.
  revert acc. induction qs as [|x qs IH]; intros acc.
  - exists acc. split; [reflexivity|]. split; [now left|].
    split; [lra | constructor].
  - cbn [map fold_left]. unfold F.max at 2. cbn [F.leb].
    destruct (Qle_bool acc x) eqn:E.
    + apply Qle_bool_iff in E.
      destruct (IH x) as (q & Hq & Hin & Hle & Hall).
      exists q. split; [exact Hq|]. split; [|split].
      * right. destruct Hin; [now left | now right].
      * lra.
      * constructor; [lra | exact Hall].
    + apply Qle_bool_false in E.
      destruct (IH acc) as (q & Hq & Hin & Hle & Hall).
      exists q. split; [exact Hq|]. split; [|split].
      * destruct Hin; [now left | right; now right].
      * exact Hle.
      * constructor; [lra | exact Hall].
Qed.

Lemma min_Fin (qs : list Q) :
  qs <> [] -> exists q, pd.min (map Fin qs) = Fin q /\ is_min_of q qs.
Proof.
  destruct qs as [|x qs]; [congruence|]. intros _.
  destruct (fold_min_Fin qs x) as (q & Hq & Hin & Hle & Hall).
  exists q. split; [exact Hq|]. split.
  - destruct Hin; [now left | now right].
  - constructor; assumption.
Qed.

Lemma max_Fin (qs : list Q) :
  qs <> [] -> exists q, pd.max (map Fin qs) = Fin q /\ is_max_of q qs.
Proof.
  destruct qs as [|x qs]; [congruence|]. intros _.
  destruct (fold_max_Fin qs x) as (q & Hq & Hin & Hle & Hall).
  exists q. split; [exact Hq|]. split.
  - destruct Hin; [now left | now right].
  - constructor; assumption.
Qed.

(** The level read off a price column: the aggregate of its last five
    cells, once there are five bars. *)
Lemma level_last_five (df : DataFrame) field agg :
  (5 <= length df)%nat ->
  pd.iloc_last (pd.tail 1 (pd.rolling 5 agg (col (pd.tail 40 df) field)))
  = agg (map Fin (map field (pd.tail 5 df))).
Proof.
  intros H5. rewrite iloc_last_tail1.
  rewrite rolling_last; [|lia | rewrite col_length, tail_length; lia].
  rewrite <- col_tail, tail_tail by lia.
  rewrite all_fin_no_nan by apply col_all_fin.
  unfold col. now rewrite map_map.
Qed.

(** With fewer than five bars the level is NaN. *)
Lemma level_short (df : DataFrame) field agg :
  (length df < 5)%nat ->
  pd.iloc_last (pd.tail 1 (pd.rolling 5 agg (col (pd.tail 40 df) field)))
  = NaN.
Proof.
  intros H5. rewrite iloc_last_tail1. apply all_nan_last, rolling_short.
  rewrite col_length, tail_length. lia.
Qed.

End LevelFacts.

Section Levels.
Context {L : NumLib}.

Lemma tail_nonempty {A} (n : nat) (l : list A) :
  (1 <= n)%nat -> l <> [] -> pd.tail n l <> [].
Proof.
  intros Hn Hl Ht. apply (f_equal (@length A)) in Ht.
  rewrite tail_length in Ht. destruct l; [congruence|]. simpl in Ht. lia.
Qed.

(** C10.  With at least five bars, the document's support hint is the
    smallest low of the last five bars of the table, rounded to two
    decimals, and the resistance hint is the largest high of the last five
    bars, rounded to two decimals.  Both depend on the last five bars only,
    so taking the last 40 bars first changes nothing. *)
Theorem levels_from_last_five_bars (df : DataFrame) (files : Files) :
  (5 <= length df)%nat ->
  exists payload lo hi,
    rhm_latest_json (snd (main df files)) = Some payload
    /\ support_hint (levels payload) = Some (F.round (Fin lo) 2)
    /\ is_min_of lo (map Low (pd.tail 5 df))
    /\ resistance_hint (levels payload) = Some (F.round (Fin hi) 2)
    /\ is_max_of hi (map High (pd.tail 5 df)).
Proof.
  intros H5.
  assert (Hne : df <> []) by (destruct df; [simpl in H5; lia | discriminate]).
  destruct (main_returns df files Hne) as (p & f & Hmain & Hlev & _).
  assert (Hlows : map Low (pd.tail 5 df) <> []).
  { intros E. apply map_eq_nil in E. revert E. apply tail_nonempty; [lia | exact Hne]. }
  assert (Hhighs : map High (pd.tail 5 df) <> []).
  { intros E. apply map_eq_nil in E. revert E. apply tail_nonempty; [lia | exact Hne]. }
  destruct (min_Fin _ Hlows) as (lo & Hlo & Hmin).
  destruct (max_Fin _ Hhighs) as (hi & Hhi & Hmax).
  exists p, lo, hi. rewrite Hmain, Hlev. cbn [snd rhm_latest_json
    support_hint resistance_hint].
  unfold support, resistance.
  rewrite !level_last_five by exact H5. rewrite Hlo, Hhi.
  repeat split; try apply Hmin; try apply Hmax.
Qed.

(** C2 on the code.  With at least one and fewer than five bars, the
    document's support and resistance hints are both the float NaN, not
    null, so the document holds NaN. *)
Theorem levels_nan_below_five_bars (df : DataFrame) (files : Files) :
  df <> [] -> (length df < 5)%nat ->
  exists payload,
    rhm_latest_json (snd (main df files)) = Some payload
    /\ support_hint (levels payload) = Some NaN
    /\ resistance_hint (levels payload) = Some NaN
    /\ payload_has_nan payload = true.
Proof.
  intros Hne H5.
  destruct (main_returns df files Hne) as (p & f & Hmain & Hlev & _).
  exists p. rewrite Hmain. cbn [snd rhm_latest_json].
  assert (Hs : support_hint (levels p) = Some NaN).
  { rewrite Hlev. cbn [support_hint]. unfold support.
    now rewrite level_short. }
  assert (Hr : resistance_hint (levels p) = Some NaN).
  { rewrite Hlev. cbn [resistance_hint]. unfold resistance.
    now rewrite level_short. }
  repeat split; try assumption.
  unfold payload_has_nan. rewrite Hs. cbn [json_is_nan].
  now rewrite !orb_true_r.
Qed.

End Levels.


(* ------------------------------------------------------------------ *)
(** ** Volatility of a flat series *)

Section FlatSeries.
Context {L : NumLib}.

Lemma skipn_repeat {A} (x : A) k n :
  skipn k (repeat x n) = repeat x (n - k).
Proof.
  revert k. induction n as [|n IH]; intros [|k]; simpl; auto.
Qed.

Lemma zip_with_repeat f (x y : float64) n m :
  (n <= m)%nat ->
  pd.zip_with f (repeat x n) (repeat y m) = repeat (f x y) n.
Proof.
  unfold pd.zip_with. revert m.
  induction n as [|n IH]; intros [|m] H; simpl; try lia; try reflexivity.
  f_equal. apply IH. lia.
Qed.

(** The logarithm column of a flat, positive close column. *)
Lemma log_flat (df : DataFrame) (c : Q) :
  0 < c -> Forall (fun b => Close b == c) df ->
  map np.log (col df Close)
  = repeat (Fin (Qred (np_log_pos c))) (length df).
Proof.
  intros Hc Hflat.
  induction Hflat as [|b df Hb _ IH]; [reflexivity|].
  cbn [col map length repeat]. fold (col df Close). rewrite IH. f_equal.
  unfold np.log.
  assert (Hpos : Qcompare (Close b) 0 = Gt) by (apply Qgt_alt; lra).
  rewrite Hpos. f_equal. apply Qred_complete.
  now apply np_log_pos_proper.
Qed.

Lemma sub_same (x : Q) : F.sub (Fin x) (Fin x) = Fin 0.
Proof.
  unfold F.sub, F.neg, F.add. f_equal.
  change 0 with (Qred 0). apply Qred_complete. ring.
Qed.

(** The log-returns of a flat series: NaN, then zeros. *)
Lemma logret_flat (df : DataFrame) (c : Q) :
  0 < c -> Forall (fun b => Close b == c) df ->
  logret df =
    match df with
    | [] => []
    | _ :: later => NaN :: repeat (Fin 0) (length later)
    end.
Proof.
  intros Hc Hflat. unfold logret. rewrite (log_flat df c Hc Hflat).
  destruct df as [|b later]; [reflexivity|].
  cbn [length repeat pd.diff].
  change (Fin (Qred (np_log_pos c)) :: repeat (Fin (Qred (np_log_pos c)))
            (length later))
    with (repeat (Fin (Qred (np_log_pos c))) (S (length later))).
  rewrite zip_with_repeat by lia. now rewrite sub_same.
Qed.

Lemma dropna_repeat_fin (q : Q) n :
  pd.dropna (repeat (Fin q) n) = repeat (Fin q) n.
Proof. induction n as [|n IH]; simpl; [reflexivity | now rewrite IH]. Qed.

Lemma sqrt_zero : np.sqrt (Fin 0) = Fin 0.
Proof.
  unfold np.sqrt. change (F.Qlt_bool 0 0) with false. cbv iota. f_equal.
  change 0 with (Qred 0) at 2. apply Qred_complete, np_sqrt_nonneg_zero.
Qed.

Lemma std_zeros : pd.std (repeat (Fin 0) 20) = Fin 0.
Proof.
  unfold pd.std.
  replace (pd.var (repeat (Fin 0) 20)) with (Fin 0) by (vm_compute; reflexivity).
  apply sqrt_zero.
Qed.

(** The volatility estimate of a flat series with a positive close. *)
Lemma hv20_flat (df : DataFrame) (c : Q) :
  0 < c -> Forall (fun b => Close b == c) df ->
  hv20 df = if (22 <=? length df)%nat then Some (Fin 0) else None.
Proof.
  intros Hc Hflat. unfold hv20. rewrite (logret_flat df c Hc Hflat).
  destruct df as [|b later]; [reflexivity|].
  cbn [length pd.dropna filter F.isnan negb].
  fold (pd.dropna (repeat (Fin 0) (length later))).
  rewrite dropna_repeat_fin, repeat_length.
  destruct (Nat.ltb_spec 20 (length later)) as [Hn|Hn].
  - replace (22 <=? S (length later))%nat with true
      by (symmetry; apply Nat.leb_le; lia).
    f_equal. unfold pd.iloc_last.
    rewrite rolling_last by (simpl; rewrite ?repeat_length; lia).
    assert (Ht : pd.tail 20 (NaN :: repeat (Fin 0) (length later))
                 = repeat (Fin 0) 20).
    { unfold pd.tail. cbn [length]. rewrite repeat_length.
      replace (S (length later) - 20)%nat with (S (length later - 20))
        by lia.
      cbn [skipn]. rewrite skipn_repeat. f_equal. lia. }
    rewrite Ht.
    replace (existsb F.notfinite (repeat (Fin 0) 20)) with false by reflexivity.
    rewrite std_zeros.
    unfold np.sqrt. change (F.Qlt_bool 252 0) with false. cbv iota.
    reflexivity.
  - replace (22 <=? S (length later))%nat with false; [reflexivity|].
    symmetry. apply Nat.leb_gt. lia.
Qed.

(** C1 as amended.  For a flat series with a positive close: with 22 or
    more bars (more than 20 log-returns, all of them 0) the volatility
    estimate [hv20] is defined and is exactly 0; with 21 bars or fewer it is
    undefined. *)
Theorem flat_series_volatility (df : DataFrame) (c : Q) :
  0 < c -> Forall (fun b => Close b == c) df ->
  ((22 <= length df)%nat -> hv20 df = Some (Fin 0))
  /\ ((length df <= 21)%nat -> hv20 df = None).
Proof.
  intros Hc Hflat. rewrite (hv20_flat df c Hc Hflat).
  split; intros Hn.
  - replace (22 <=? length df)%nat with true; [reflexivity|].
    symmetry. apply Nat.leb_le. lia.
  - replace (22 <=? length df)%nat with false; [reflexivity|].
    symmetry. apply Nat.leb_gt. lia.
Qed.

(** What the document shows for a flat series: its volatility entry is
    null whatever the number of bars, because [if hv20] takes the float 0
    for false. *)
Lemma flat_series_proxy_null (df : DataFrame) (c : Q) (files : Files) :
  0 < c -> Forall (fun b => Close b == c) df -> df <> [] ->
  exists payload,
    rhm_latest_json (snd (main df files)) = Some payload
    /\ hv20_proxy (volatility payload) = None.
Proof.
  intros Hc Hflat Hne.
  destruct (main_returns df files Hne) as (p & f & Hmain & _ & Hvol).
  exists p. rewrite Hmain. split; [reflexivity|]. rewrite Hvol.
  rewrite (hv20_flat df c Hc Hflat).
  destruct (22 <=? length df)%nat; reflexivity.
Qed.

End FlatSeries.


(* ------------------------------------------------------------------ *)
(** ** The statements on the sample tables *)

Lemma flat_table_close (n : nat) :
  Forall (fun b => Close b == 100) (flat_table n).
Proof.
  unfold flat_table, table. apply Forall_map, Forall_forall.
  intros [k [[[h l] c] v]] Hin.
  apply in_combine_r, repeat_spec in Hin.
  injection Hin as -> -> -> ->. reflexivity.
Qed.

(** C1 as stated fails: the flat table of 21 bars and the flat table of 22
    bars both give a document whose volatility entry is null, not the
    number 0. *)
Lemma flat_table_proxy_is_null :
  option_map (fun p => hv20_proxy (volatility p))
    (rhm_latest_json (snd (main (flat_table 21) no_files))) = Some None
  /\ option_map (fun p => hv20_proxy (volatility p))
       (rhm_latest_json (snd (main (flat_table 22) no_files))) = Some None.
Proof. split; vm_compute; reflexivity. Qed.

Lemma flat_series_volatility_witness :
  hv20 (flat_table 22) = Some (Fin 0) /\ hv20 (flat_table 21) = None.
Proof.
  split.
  - apply (proj1 (flat_series_volatility (flat_table 22) 100
                    ltac:(reflexivity) (flat_table_close 22))).
    apply Nat.leb_le. reflexivity.
  - apply (proj2 (flat_series_volatility (flat_table 21) 100
                    ltac:(reflexivity) (flat_table_close 21))).
    apply Nat.leb_le. reflexivity.
Defined.

Lemma levels_nan_below_five_bars_witness :
  exists payload,
    rhm_latest_json (snd (main (ramp_table 4) no_files)) = Some payload
    /\ support_hint (levels payload) = Some NaN
    /\ resistance_hint (levels payload) = Some NaN
    /\ payload_has_nan payload = true.
Proof.
  apply (levels_nan_below_five_bars (ramp_table 4) no_files).
  - discriminate.
  - apply Nat.ltb_lt. reflexivity.
Defined.

Lemma obv_signed_cumulative_sum_witness :
  exists o,
    obv (zigzag_table 5) = Some o
    /\ length o = length (zigzag_table 5)
    /\ nth 0 o 0%Z = 0%Z.
Proof.
  destruct (obv_signed_cumulative_sum (zigzag_table 5) ltac:(discriminate))
    as (o & Ho & Hlen & H0 & _).
  exists o. repeat split; assumption.
Defined.

Lemma rsi_bounded_or_undefined_witness :
  (exists v, iloc (rsi (col (zigzag_table 16) Close) 14) 15 = Fin v
             /\ 0 <= v <= 100)
  /\ iloc (rsi (col (ramp_table 16) Close) 14) 15 = NaN.
Proof.
  split.
  - apply (proj1 (rsi_bounded_or_undefined (col (zigzag_table 16) Close) 15)).
    vm_compute. discriminate.
  - apply (proj2 (rsi_bounded_or_undefined (col (ramp_table 16) Close) 15)).
    vm_compute. reflexivity.
Defined.

Lemma macd_defined_everywhere_witness :
  exists h, iloc (snd (macd (col (zigzag_table 3) Close) 12 26 9)) 2 = Fin h.
Proof.
  pose proof (macd_defined_everywhere (zigzag_table 3) 2
                ltac:(apply Nat.ltb_lt; reflexivity)) as H.
  destruct (macd (col (zigzag_table 3) Close) 12 26 9) as [[m s] h].
  destruct H as (_ & m' & s' & h' & _ & _ & Hh & _).
  exists h'. exact Hh.
Defined.

Lemma bollinger_bands_ordered_witness :
  exists ma up lo,
    bollinger (col (zigzag_table 21) Close) 20 2 = (ma, up, lo)
    /\ F.leb (iloc lo 20) (iloc ma 20) = true
    /\ F.leb (iloc ma 20) (iloc up 20) = true.
Proof.
  eexists. eexists. eexists. split; [reflexivity|].
  apply (bollinger_bands_ordered (col (zigzag_table 21) Close));
    [reflexivity | vm_compute; discriminate ..].
Defined.

Lemma short_history_all_undefined_witness :
  all_nan (rsi (col (ramp_table 13) Close) 14)
  /\ all_nan (chaikin_mf (ramp_table 13) 20)
  /\ all_nan (fst (fst (bollinger (col (ramp_table 13) Close) 20 2))).
Proof.
  destruct (short_history_all_undefined (col (ramp_table 13) Close)
              (ramp_table 13)) as (Hb & Hr & Hc).
  split; [|split].
  - apply Hr. apply Nat.ltb_lt. reflexivity.
  - apply Hc. apply Nat.ltb_lt. reflexivity.
  - specialize (Hb ltac:(apply Nat.ltb_lt; reflexivity)).
    destruct (bollinger (col (ramp_table 13) Close) 20 2) as [[ma up] lo].
    apply Hb.
Defined.

Lemma chaikin_mf_poisoned_by_flat_bar_witness :
  iloc (chaikin_mf (one_rangeless_bar_table 25) 20) 22 = NaN.
Proof.
  eapply (chaikin_mf_poisoned_by_flat_bar (one_rangeless_bar_table 25) 3 22).
  - reflexivity.
  - reflexivity.
  - lia.
  - lia.
  - apply Nat.ltb_lt. reflexivity.
Defined.

Lemma levels_from_last_five_bars_witness :
  exists payload lo hi,
    rhm_latest_json (snd (main (zigzag_table 7) no_files)) = Some payload
    /\ support_hint (levels payload) = Some (F.round (Fin lo) 2)
    /\ is_min_of lo (map Low (pd.tail 5 (zigzag_table 7)))
    /\ resistance_hint (levels payload) = Some (F.round (Fin hi) 2)
    /\ is_max_of hi (map High (pd.tail 5 (zigzag_table 7))).
Proof.
  apply (levels_from_last_five_bars (zigzag_table 7) no_files).
  apply Nat.leb_le. reflexivity.
Defined.

(** A few runs of the functions on the sample tables. *)

Example obv_of_zigzag :
  obv (zigzag_table 5) = Some [0; -900; 300; -600; 600]%Z.
Proof. reflexivity. Qed.

Example chaikin_mf_recovers :
  iloc (chaikin_mf (one_rangeless_bar_table 25) 20) 23 = Fin 0.
Proof. vm_compute. reflexivity. Qed.

Example levels_of_zigzag :
  option_map levels (rhm_latest_json (snd (main (zigzag_table 7) no_files)))
  = Some {| support_hint := Some (Fin 102);
            resistance_hint := Some (Fin 110) |}.
Proof. vm_compute. reflexivity. Qed.

Example levels_of_one_bar :
  option_map levels (rhm_latest_json (snd (main (flat_table 1) no_files)))
  = Some {| support_hint := Some NaN; resistance_hint := Some NaN |}.
Proof. vm_compute. reflexivity. Qed.

Example empty_table_exits :
  main [] no_files = (SystemExit "Keine Daten geladen.", no_files).
Proof. reflexivity. Qed.

Example round_half_even_examples :
  F.round (Fin (12345 # 10000)) 2 = Fin (123 # 100)
  /\ F.round (Fin (125 # 1000)) 2 = Fin (3 # 25)
  /\ F.round NaN 2 = NaN.
Proof. repeat split; vm_compute; reflexivity. Qed.


(* ------------------------------------------------------------------ *)
(** ** Exponential averages stay inside the range of the observations *)

Section EmaRange.

Lemma Forall_nth_lt (P : float64 -> Prop) (s : Series) i :
  Forall P s -> (i < length s)%nat -> P (nth i s NaN).
Proof.
  intros Hs Hi. exact (proj1 (Forall_forall _ _) Hs _ (nth_In s NaN Hi)).
Qed.

Lemma span_alpha (span : nat) :
  (1 <= span)%nat ->
  0 < 2 / (inject_Z (Z.of_nat span) + 1)
  /\ 2 / (inject_Z (Z.of_nat span) + 1) <= 1.
Proof.
  intros Hs.
  assert (Hk : 1 <= inject_Z (Z.of_nat span)).
  { change 1 with (inject_Z 1). rewrite <- Zle_Qle. lia. }
  split.
  - apply Qlt_shift_div_l; lra.
  - apply Qle_shift_div_r; lra.
Qed.

(** One step of the average from [w] with the observation [x]: the convex
    combination [(1 - alpha) w + alpha x]. *)
Lemma ewm_update_value (alpha w x : Q) :
  exists q,
    F.div (F.add (F.mul (Fin (Qred (1 * (1 - alpha)))) (Fin w))
                 (F.mul (Fin alpha) (Fin x)))
          (Fin (Qred (Qred (1 * (1 - alpha)) + alpha))) = Fin q
    /\ q == (1 - alpha) * w + alpha * x.
Proof.
  unfold F.mul, F.add, F.div.
  rewrite Qeq_bool_false by (rewrite !Qred_correct; lra).
  eexists. split; [reflexivity|].
  rewrite !Qred_correct. field. lra.
Qed.

Lemma ewm_loop_between (alpha w lo hi : Q) (vals : Series) :
  0 < alpha -> alpha <= 1 -> lo <= w <= hi ->
  Forall (fin_in lo hi) vals ->
  Forall (fin_in lo hi) (pd.ewm_loop alpha (Fin w) 1 vals).
Proof.
  intros Ha0 Ha1 Hw Hv. revert w Hw.
  induction Hv as [|x vals Hx _ IH]; intros w Hw; [constructor|].
  destruct x as [| | |x]; cbn [fin_in] in Hx; try contradiction.
  cbn [pd.ewm_loop F.isnan].
  destruct (ewm_update_value alpha w x) as (q & -> & Hq).
  assert (Hb : lo <= q <= hi) by (rewrite Hq; split; nra).
  constructor; [exact Hb | now apply IH].
Qed.

Lemma ewm_mean_between (span : nat) (lo hi : Q) (s : Series) :
  (1 <= span)%nat ->
  Forall (fin_in lo hi) s -> Forall (fin_in lo hi) (pd.ewm_mean span s).
Proof.
  intros Hs Hall. destruct (span_alpha span Hs) as [Ha0 Ha1].
  destruct Hall as [|x s Hx Hall]; [constructor|].
  destruct x as [| | |x]; cbn [fin_in] in Hx; try contradiction.
  cbn [pd.ewm_mean]. constructor; [exact Hx|].
  now apply ewm_loop_between.
Qed.

Lemma col_fin_in (df : DataFrame) field (lo hi : Q) :
  Forall (fun b => lo <= field b <= hi) df ->
  Forall (fin_in lo hi) (col df field).
Proof.
  intros H. unfold col. apply Forall_map.
  eapply Forall_impl; [|exact H]. intros b Hb. exact Hb.
Qed.

Lemma sub_fin_in (lo hi : Q) (x y : float64) :
  fin_in lo hi x -> fin_in lo hi y ->
  fin_in (- (hi - lo)) (hi - lo) (F.sub x y).
Proof.
  destruct x as [| | |a], y as [| | |b]; cbn [fin_in]; try tauto.
  intros Ha Hb. unfold F.sub, F.neg, F.add. cbn [fin_in].
  rewrite Qred_correct. lra.
Qed.

(** The three MACD series of a close column whose values all lie between
    [lo] and [hi]. *)
Lemma macd_between (df : DataFrame) (lo hi : Q) :
  Forall (fun b => lo <= Close b <= hi) df ->
  let '(macd_line, signal_line, hist) := macd (col df Close) 12 26 9 in
  Forall (fin_in (- (hi - lo)) (hi - lo)) macd_line
  /\ Forall (fin_in (- (hi - lo)) (hi - lo)) signal_line
  /\ Forall (fin_in (- ((hi - lo) - - (hi - lo))) ((hi - lo) - - (hi - lo)))
        hist.
Proof.
  intros H. unfold macd.
  pose proof (col_fin_in df Close lo hi H) as Hc.
  assert (Hm : Forall (fin_in (- (hi - lo)) (hi - lo))
                 (pd.zip_with F.sub (pd.ewm_mean 12 (col df Close))
                                    (pd.ewm_mean 26 (col df Close)))).
  { apply (zip_with_Forall (fin_in lo hi) (fin_in lo hi));
      [exact (sub_fin_in lo hi) | |]; apply ewm_mean_between; auto; lia. }
  assert (Hs : Forall (fin_in (- (hi - lo)) (hi - lo))
                 (pd.ewm_mean 9
                    (pd.zip_with F.sub (pd.ewm_mean 12 (col df Close))
                                       (pd.ewm_mean 26 (col df Close)))))
    by (apply ewm_mean_between; [lia | exact Hm]).
  split; [exact Hm|]. split; [exact Hs|].
  apply (zip_with_Forall (fin_in (- (hi - lo)) (hi - lo))
                         (fin_in (- (hi - lo)) (hi - lo)));
    [apply sub_fin_in | exact Hm | exact Hs].
Qed.

(** X1.  MACD is bounded by the range of the closes.  If every close of the
    table lies between [lo] and [hi], every cell of the MACD line and of the
    signal line is a finite value of absolute value at most [hi - lo], and
    every cell of the histogram is a finite value of absolute value at most
    [2 (hi - lo)]. *)
Theorem macd_bounded_by_close_range (df : DataFrame) (lo hi : Q) (i : nat) :
  Forall (fun b => lo <= Close b <= hi) df ->
  (i < length df)%nat ->
  let '(macd_line, signal_line, hist) := macd (col df Close) 12 26 9 in
  exists m s h,
    iloc macd_line i = Fin m /\ iloc signal_line i = Fin s
    /\ iloc hist i = Fin h
    /\ Qabs m <= hi - lo /\ Qabs s <= hi - lo /\ Qabs h <= 2 * (hi - lo).
Proof.
  intros H Hi. pose proof (macd_between df lo hi H) as Hb.
  assert (Hlen : let '(m, s, h) := macd (col df Close) 12 26 9 in
                 length m = length df /\ length s = length df
                 /\ length h = length df).
  { unfold macd.
    rewrite !zip_with_length, !ewm_mean_length, !zip_with_length,
      !ewm_mean_length, col_length. lia. }
  destruct (macd (col df Close) 12 26 9) as [[ml sl] hl].
  destruct Hb as (Hm & Hs & Hh). destruct Hlen as (Lm & Ls & Lh).
  unfold iloc.
  pose proof (Forall_nth_lt _ ml i Hm ltac:(lia)) as Hmi.
  pose proof (Forall_nth_lt _ sl i Hs ltac:(lia)) as Hsi.
  pose proof (Forall_nth_lt _ hl i Hh ltac:(lia)) as Hhi.
  destruct (nth i ml NaN) as [| | |m]; cbn [fin_in] in Hmi; try contradiction.
  destruct (nth i sl NaN) as [| | |s]; cbn [fin_in] in Hsi; try contradiction.
  destruct (nth i hl NaN) as [| | |h]; cbn [fin_in] in Hhi; try contradiction.
  exists m, s, h. repeat split; try reflexivity;
    apply Qabs_case; intros; lra.
Qed.

(** X2.  MACD of a flat table.  If every close equals [c], the MACD line, the
    signal line and the histogram are zero at every position. *)
Theorem macd_of_flat_closes_is_zero (df : DataFrame) (c : Q) (i : nat) :
  Forall (fun b => Close b == c) df ->
  (i < length df)%nat ->
  let '(macd_line, signal_line, hist) := macd (col df Close) 12 26 9 in
  exists m s h,
    iloc macd_line i = Fin m /\ iloc signal_line i = Fin s
    /\ iloc hist i = Fin h /\ m == 0 /\ s == 0 /\ h == 0.
Proof.
  intros H Hi.
  assert (H' : Forall (fun b => c <= Close b <= c) df).
  { eapply Forall_impl; [|exact H]. intros b Hb. cbv beta in Hb. lra. }
  pose proof (macd_between df c c H') as Hb.
  assert (Hlen : let '(m, s, h) := macd (col df Close) 12 26 9 in
                 length m = length df /\ length s = length df
                 /\ length h = length df).
  { unfold macd.
    rewrite !zip_with_length, !ewm_mean_length, !zip_with_length,
      !ewm_mean_length, col_length. lia. }
  destruct (macd (col df Close) 12 26 9) as [[ml sl] hl].
  destruct Hb as (Hm & Hs & Hh). destruct Hlen as (Lm & Ls & Lh).
  unfold iloc.
  pose proof (Forall_nth_lt _ ml i Hm ltac:(lia)) as Hmi.
  pose proof (Forall_nth_lt _ sl i Hs ltac:(lia)) as Hsi.
  pose proof (Forall_nth_lt _ hl i Hh ltac:(lia)) as Hhi.
  destruct (nth i ml NaN) as [| | |m]; cbn [fin_in] in Hmi; try contradiction.
  destruct (nth i sl NaN) as [| | |s]; cbn [fin_in] in Hsi; try contradiction.
  destruct (nth i hl NaN) as [| | |h]; cbn [fin_in] in Hhi; try contradiction.
  exists m, s, h. repeat split; try reflexivity; lra.
Qed.

End EmaRange.


(* ------------------------------------------------------------------ *)
(** ** Where the rolling indicators start *)

Section WarmUp.
Context {L : NumLib}.

Lemma rolling_prefix_nan w agg (s : Series) i :
  (i + 1 < w)%nat -> nth i (pd.rolling w agg s) NaN = NaN.
Proof.
  intros Hw.
  destruct (Nat.lt_ge_cases i (length s)) as [Hi|Hi].
  - rewrite rolling_nth by exact Hi.
    replace (i + 1 <? w)%nat with true; [reflexivity|].
    symmetry. apply Nat.ltb_lt. exact Hw.
  - apply nth_overflow. now rewrite rolling_length.
Qed.

(** The cell of a rolling aggregate over a window without NaN. *)
Lemma rolling_nth_fin w agg (s : Series) i :
  all_fin s -> (w <= i + 1)%nat -> (i < length s)%nat ->
  nth i (pd.rolling w agg s) NaN = agg (pd.window_at w s i).
Proof.
  intros Hs Hw Hi. rewrite rolling_nth by exact Hi.
  replace (i + 1 <? w)%nat with false by (symmetry; apply Nat.ltb_ge; lia).
  rewrite all_fin_no_nan; [reflexivity|].
  now apply window_at_Forall.
Qed.

Lemma sub_nan_r (x : float64) : F.sub x NaN = NaN.
Proof. destruct x; reflexivity. Qed.

Lemma add_nan_r (x : float64) : F.add x NaN = NaN.
Proof. destruct x; reflexivity. Qed.

(** X3.  Warm-up of the rolling indicators.  Whatever the length of the
    input, the three Bollinger series and the Chaikin money flow are NaN at
    the first 19 positions, and RSI(14) is NaN at the first 13 positions. *)
Theorem rolling_indicators_warm_up (series : Series) (df : DataFrame) (i : nat) :
  ((i < 19)%nat ->
   let '(ma, up, lo) := bollinger series 20 2 in
   iloc ma i = NaN /\ iloc up i = NaN /\ iloc lo i = NaN)
  /\ ((i < 13)%nat -> iloc (rsi series 14) i = NaN)
  /\ ((i < 19)%nat -> iloc (chaikin_mf df 20) i = NaN).
Proof.
  unfold iloc. split; [|split]; intros Hi.
  - unfold bollinger.
    assert (Hma : nth i (pd.rolling 20 pd.mean series) NaN = NaN)
      by (apply rolling_prefix_nan; lia).
    split; [exact Hma|].
    destruct (Nat.lt_ge_cases i (length series)) as [Hl|Hl].
    + rewrite !zip_with_nth
        by (rewrite ?length_map, rolling_length; exact Hl).
      rewrite Hma. split; reflexivity.
    + split; apply nth_overflow;
        rewrite zip_with_length, length_map, !rolling_length; lia.
  - rewrite rsi_unfold, map_nth_nan by reflexivity.
    destruct (Nat.lt_ge_cases i (length series)) as [Hl|Hl].
    + rewrite zip_with_nth.
      * unfold rsi_avg_gain. rewrite rolling_prefix_nan by lia. reflexivity.
      * unfold rsi_avg_gain.
        now rewrite rolling_length, where_length, diff_length.
      * unfold rsi_avg_loss.
        now rewrite replace_zero_nan_length, rolling_length, length_map,
          where_length, diff_length.
    + rewrite nth_overflow; [reflexivity|].
      unfold rsi_avg_gain, rsi_avg_loss.
      rewrite zip_with_length, replace_zero_nan_length, !rolling_length,
        length_map, !where_length, diff_length. lia.
  - destruct (Nat.lt_ge_cases i (length df)) as [Hl|Hl].
    + unfold chaikin_mf.
      set (mf_vol := pd.zip_with F.mul _ _).
      assert (Hmv : length mf_vol = length df).
      { unfold mf_vol.
        rewrite !zip_with_length, replace_zero_nan_length, !zip_with_length,
          !length_map.
        unfold col_volume. rewrite length_map, !col_length. lia. }
      rewrite zip_with_nth;
        [| rewrite rolling_length; lia
         | rewrite rolling_length, length_map; unfold col_volume;
           rewrite length_map; lia].
      rewrite rolling_prefix_nan by lia. reflexivity.
    + apply nth_overflow. now rewrite chaikin_mf_length.
Qed.

End WarmUp.


(* ------------------------------------------------------------------ *)
(** ** Aggregates of finite windows *)

Section FiniteWindows.
Context {L : NumLib}.

Lemma finn_is_fin (s : Series) : Forall finn s -> all_fin s.
Proof.
  intros H. eapply Forall_impl; [|exact H].
  intros [| | |q]; cbn [finn is_fin]; tauto.
Qed.

Lemma of_nat_nonzero (n : nat) :
  (1 <= n)%nat -> Qeq_bool (inject_Z (Z.of_nat n)) 0 = false.
Proof.
  intros Hn. apply Qeq_bool_false. intros H.
  change 0 with (inject_Z 0) in H. rewrite inject_Z_injective in H. lia.
Qed.

Lemma of_nat_pos (n : nat) : (1 <= n)%nat -> 0 < inject_Z (Z.of_nat n).
Proof.
  intros Hn. change 0 with (inject_Z 0). rewrite <- Zlt_Qlt. lia.
Qed.

Lemma sum_is_fin (w : list float64) : all_fin w -> is_fin (pd.sum w) = true.
Proof.
  induction 1 as [|x w Hx _ IH]; [reflexivity|].
  cbn [pd.sum fold_right]. fold (pd.sum w).
  destruct x; try discriminate. destruct (pd.sum w); try discriminate.
  reflexivity.
Qed.

Lemma mean_is_fin (w : list float64) :
  all_fin w -> (1 <= length w)%nat -> is_fin (pd.mean w) = true.
Proof.
  intros Hw Hn. unfold pd.mean, F.of_nat, F.of_Z.
  pose proof (sum_is_fin w Hw) as Hs.
  destruct (pd.sum w); try discriminate.
  cbn [F.div]. now rewrite of_nat_nonzero.
Qed.

Lemma add_finn (x y : float64) : finn x -> finn y -> finn (F.add x y).
Proof.
  destruct x, y; cbn [finn F.add]; try tauto.
  intros Hx Hy. rewrite Qred_correct. lra.
Qed.

Lemma sum_finn (w : list float64) : Forall finn w -> finn (pd.sum w).
Proof.
  induction 1 as [|x w Hx _ IH]; cbn [pd.sum fold_right finn]; [lra|].
  now apply add_finn.
Qed.

Lemma div_count_finn (x : float64) (n : nat) :
  finn x -> (1 <= n)%nat -> finn (F.div x (F.of_nat n)).
Proof.
  destruct x as [| | |a]; cbn [finn]; try tauto.
  intros Ha Hn. unfold F.of_nat, F.of_Z. cbn [F.div].
  rewrite of_nat_nonzero by exact Hn. cbn [finn].
  rewrite Qred_correct. apply Qle_shift_div_l; [now apply of_nat_pos | lra].
Qed.

Lemma mean_finn (w : list float64) :
  Forall finn w -> (1 <= length w)%nat -> finn (pd.mean w).
Proof.
  intros Hw Hn. unfold pd.mean.
  apply div_count_finn; [now apply sum_finn | exact Hn].
Qed.

Lemma square_finn (x m : float64) :
  is_fin x = true -> is_fin m = true ->
  finn (F.mul (F.sub x m) (F.sub x m)).
Proof.
  destruct x as [| | |a], m as [| | |b]; try discriminate. intros _ _.
  unfold F.sub, F.neg, F.add, F.mul. cbn [finn].
  rewrite Qred_correct. nra.
Qed.

Lemma var_finn (w : list float64) :
  all_fin w -> (2 <= length w)%nat -> finn (pd.var w).
Proof.
  intros Hw Hn. unfold pd.var.
  replace (length w <=? 1)%nat with false
    by (symmetry; apply Nat.leb_gt; lia).
  apply div_count_finn; [|lia].
  apply sum_finn, Forall_map.
  pose proof (mean_is_fin w Hw ltac:(lia)) as Hm.
  eapply Forall_impl; [|exact Hw].
  intros x Hx. now apply square_finn.
Qed.

Lemma sqrt_finn (x : float64) : finn x -> finn (np.sqrt x).
Proof.
  destruct x as [| | |q]; cbn [finn np.sqrt]; try tauto.
  intros Hq. replace (F.Qlt_bool q 0) with false
    by (symmetry; now apply Qlt_bool_false).
  cbn [finn]. rewrite Qred_correct. apply np_sqrt_nonneg_ge0.
Qed.

Lemma std_finn (w : list float64) :
  all_fin w -> (2 <= length w)%nat -> finn (pd.std w).
Proof. intros Hw Hn. unfold pd.std. now apply sqrt_finn, var_finn. Qed.

(** X4.  The Bollinger bands after the warm-up.  On a series of finite values,
    from position 19 on the moving average and both bands are finite, the
    lower band is at most the average and the average is at most the upper
    band. *)
Theorem bollinger_defined_after_warm_up (series ma up lo : Series) (i : nat) :
  all_fin series ->
  bollinger series 20 2 = (ma, up, lo) ->
  (19 <= i)%nat -> (i < length series)%nat ->
  exists m u l,
    iloc ma i = Fin m /\ iloc up i = Fin u /\ iloc lo i = Fin l
    /\ l <= m /\ m <= u.
Proof.
  intros Hfin E H19 Hi. unfold bollinger in E. injection E as <- <- <-.
  unfold iloc.
  rewrite !zip_with_nth by (rewrite ?length_map, rolling_length; exact Hi).
  rewrite map_nth_nan by reflexivity.
  rewrite !rolling_nth_fin by (try assumption; lia).
  pose proof (window_at_Forall _ 20 series i Hfin) as Hw.
  pose proof (window_at_length 20 series i Hi ltac:(lia)) as Hl.
  pose proof (mean_is_fin _ Hw ltac:(lia)) as Hm.
  pose proof (std_finn _ Hw ltac:(lia)) as Hs.
  destruct (pd.mean (pd.window_at 20 series i)) as [| | |m];
    try discriminate.
  destruct (pd.std (pd.window_at 20 series i)) as [| | |sd];
    cbn [finn] in Hs; try contradiction.
  unfold F.sub, F.neg, F.mul, F.add.
  eexists. eexists. eexists.
  split; [reflexivity|]. split; [reflexivity|]. split; [reflexivity|].
  rewrite !Qred_correct. repeat split; lra.
Qed.

End FiniteWindows.


(* ------------------------------------------------------------------ *)
(** ** RSI on finite series *)

Section RsiFinite.
Context {L : NumLib}.

(** The cells of [diff] of a finite series: NaN first, finite after. *)
Lemma diff_cells (s : Series) :
  all_fin s -> Forall (fun d => d = NaN \/ is_fin d = true) (pd.diff s).
Proof.
  intros Hs. destruct s as [|x s]; [constructor|].
  cbn [pd.diff]. constructor; [now left|].
  assert (Hz : all_fin (pd.zip_with F.sub s (x :: s))).
  { apply zip_with_fin; [exact sub_Fin | now inversion Hs | exact Hs]. }
  eapply Forall_impl; [|exact Hz]. intros d Hd. now right.
Qed.

Lemma gain_cell_finn (d : float64) :
  d = NaN \/ is_fin d = true ->
  finn (if F.gtb d (Fin 0) then d else Fin 0).
Proof.
  intros [-> | Hd]; [cbn; lra|].
  destruct d as [| | |q]; try discriminate.
  pose proof (gain_cell_nneg (Fin q)) as H.
  destruct (F.gtb (Fin q) (Fin 0)); exact H.
Qed.

Lemma loss_cell_finn (d : float64) :
  d = NaN \/ is_fin d = true ->
  finn (F.neg (if F.ltb d (Fin 0) then d else Fin 0)).
Proof.
  intros [-> | Hd]; [cbn; lra|].
  destruct d as [| | |q]; try discriminate.
  pose proof (loss_cell_nneg (Fin q)) as H.
  destruct (F.ltb (Fin q) (Fin 0)); exact H.
Qed.

Lemma rsi_gain_input_finn (s : Series) :
  all_fin s ->
  Forall finn (pd.where_ (fun d => F.gtb d (Fin 0)) (Fin 0) (pd.diff s)).
Proof.
  intros Hs. unfold pd.where_. apply Forall_map.
  eapply Forall_impl; [|exact (diff_cells s Hs)].
  exact gain_cell_finn.
Qed.

Lemma rsi_loss_input_finn (s : Series) :
  all_fin s ->
  Forall finn
    (map F.neg (pd.where_ (fun d => F.ltb d (Fin 0)) (Fin 0) (pd.diff s))).
Proof.
  intros Hs. unfold pd.where_. rewrite map_map. apply Forall_map.
  eapply Forall_impl; [|exact (diff_cells s Hs)].
  exact loss_cell_finn.
Qed.

(** The rolling mean of a series of finite, non-negative cells, at a
    position where the window is full. *)
Lemma rolling_mean_finn w (s : Series) i :
  Forall finn s -> (1 <= w)%nat -> (w <= i + 1)%nat -> (i < length s)%nat ->
  finn (nth i (pd.rolling w pd.mean s) NaN).
Proof.
  intros Hs H1 Hw Hi.
  rewrite rolling_nth_fin by (try assumption; now apply finn_is_fin).
  apply mean_finn; [now apply window_at_Forall|].
  rewrite window_at_length by assumption. exact H1.
Qed.

Lemma rsi_of_rs_fin (r : Q) :
  0 <= r -> exists v, rsi_of_rs (Fin r) = Fin v.
Proof.
  intros Hr. unfold rsi_of_rs. cbn [F.add F.div].
  rewrite Qeq_bool_false by (rewrite Qred_correct; lra).
  cbn [F.sub F.neg F.add]. eauto.
Qed.

(** X5.  Where RSI(14) is defined.  On a series of finite values, at every
    position from 13 on, the RSI cell is NaN exactly when the rolling mean
    of the losses is zero there, that is when no close of the window fell. *)
Theorem rsi_nan_iff_no_loss (series : Series) (i : nat) :
  all_fin series -> (13 <= i)%nat -> (i < length series)%nat ->
  iloc (rsi series 14) i = NaN
  <-> F.is_zero (iloc (rsi_avg_loss series 14) i) = true.
Proof.
  intros Hfin H13 Hi. unfold iloc.
  assert (Hlen : forall c o, length (pd.where_ c o (pd.diff series)) = length series)
    by (intros; now rewrite where_length, diff_length).
  pose proof (rolling_mean_finn 14 _ i (rsi_gain_input_finn series Hfin)
                ltac:(lia) ltac:(lia) ltac:(rewrite Hlen; lia)) as Hg.
  pose proof (rolling_mean_finn 14 _ i (rsi_loss_input_finn series Hfin)
                ltac:(lia) ltac:(lia) ltac:(rewrite length_map, Hlen; lia))
    as Hl.
  fold (rsi_avg_gain series 14) in Hg. fold (rsi_avg_loss series 14) in Hl.
  rewrite rsi_unfold, map_nth_nan by reflexivity.
  rewrite zip_with_nth;
    [| unfold rsi_avg_gain; rewrite rolling_length, Hlen; lia
     | unfold rsi_avg_loss;
       rewrite replace_zero_nan_length, rolling_length, length_map, Hlen; lia].
  unfold pd.replace_zero_nan at 1. rewrite map_nth_nan by reflexivity.
  destruct (nth i (rsi_avg_gain series 14) NaN) as [| | |g];
    cbn [finn] in Hg; try contradiction.
  destruct (nth i (rsi_avg_loss series 14) NaN) as [| | |l];
    cbn [finn] in Hl; try contradiction.
  cbn [F.is_zero]. destruct (Qeq_bool l 0) eqn:E.
  - split; reflexivity.
  - cbn [F.div]. rewrite E.
    assert (Hr : 0 <= Qred (g / l)).
    { rewrite Qred_correct.
      assert (~ l == 0) by (intro Hz; apply Qeq_bool_iff in Hz; congruence).
      apply Qle_shift_div_l; lra. }
    destruct (rsi_of_rs_fin _ Hr) as [v ->].
    split; discriminate.
Qed.

Lemma diff_never_falls (a : Q) (rest : list Q) :
  never_falls (a :: rest) ->
  Forall finn (pd.zip_with F.sub (map Fin rest) (map Fin (a :: rest))).
Proof.
  revert a. induction rest as [|b rest IH]; intros a H; [constructor|].
  destruct H as [Hab Hrest].
  unfold pd.zip_with in *. cbn [map combine]. constructor.
  - unfold F.sub, F.neg, F.add. cbn [finn]. rewrite Qred_correct. lra.
  - apply (IH b Hrest).
Qed.

Lemma zero_loss_cell (d : float64) :
  d = NaN \/ finn d ->
  F.is_zero (F.neg (if F.ltb d (Fin 0) then d else Fin 0)) = true.
Proof.
  intros [-> | Hd]; [reflexivity|].
  destruct d as [| | |q]; cbn [finn] in Hd; try contradiction.
  cbn [F.ltb]. replace (F.Qlt_bool q 0) with false
    by (symmetry; now apply Qlt_bool_false).
  reflexivity.
Qed.

Lemma add_zero_cells (x y : float64) :
  F.is_zero x = true -> F.is_zero y = true -> F.is_zero (F.add x y) = true.
Proof.
  destruct x as [| | |a], y as [| | |b]; try discriminate.
  cbn [F.is_zero F.add]. rewrite !Qeq_bool_iff. intros Ha Hb.
  rewrite Qred_correct, Ha, Hb. reflexivity.
Qed.

Lemma sum_zero_cells (w : list float64) :
  Forall (fun x => F.is_zero x = true) w -> F.is_zero (pd.sum w) = true.
Proof.
  induction 1 as [|x w Hx _ IH]; [reflexivity|].
  cbn [pd.sum fold_right]. now apply add_zero_cells.
Qed.

Lemma mean_zero_cells (w : list float64) :
  Forall (fun x => F.is_zero x = true) w ->
  pd.mean w = NaN \/ F.is_zero (pd.mean w) = true.
Proof.
  intros H. apply sum_zero_cells in H. unfold pd.mean, F.of_nat, F.of_Z.
  destruct (pd.sum w) as [| | |q]; try discriminate.
  cbn [F.is_zero] in H. apply Qeq_bool_iff in H.
  cbn [F.div]. destruct (Qeq_bool _ 0).
  - left. apply Qeq_alt in H. now rewrite H.
  - right. cbn [F.is_zero]. apply Qeq_bool_iff.
    rewrite Qred_correct, H. unfold Qdiv. ring.
Qed.

Lemma zip_with_nan_r f (a b : Series) :
  (forall x, f x NaN = NaN) -> all_nan b -> all_nan (pd.zip_with f a b).
Proof.
  intros Hf Hb. revert a.
  induction Hb as [|y b Hy _ IH]; intros [|x a];
    unfold pd.zip_with in *; cbn [combine map]; constructor.
  - subst y. apply Hf.
  - apply IH.
Qed.

(** X6.  RSI of a series that never falls.  If no close is below the close
    before it, every cell of RSI(14) is NaN, whatever the length of the
    series: the rolling mean of the losses is zero and is replaced by NaN. *)
Theorem rsi_nan_when_closes_never_fall (closes : list Q) :
  never_falls closes ->
  length (rsi (map Fin closes) 14) = length closes
  /\ all_nan (rsi (map Fin closes) 14).
Proof.
  intros Hnf. split; [now rewrite rsi_length, length_map|].
  rewrite rsi_unfold. apply map_all_nan; [reflexivity|].
  apply zip_with_nan_r; [exact div_nan_r|].
  unfold pd.replace_zero_nan, all_nan. apply Forall_map.
  assert (Hloss : Forall (fun x => x = NaN \/ F.is_zero x = true)
                    (rsi_avg_loss (map Fin closes) 14)).
  { apply (rolling_Forall _ (fun x => F.is_zero x = true));
      [now left | exact mean_zero_cells |].
    unfold pd.where_. rewrite map_map. apply Forall_map.
    destruct closes as [|a rest]; [constructor|].
    cbn [map pd.diff]. constructor; [reflexivity|].
    eapply Forall_impl; [|exact (diff_never_falls a rest Hnf)].
    intros d Hd. apply zero_loss_cell. now right. }
  eapply Forall_impl; [|exact Hloss].
  intros x [-> | Hx]; [reflexivity | now rewrite Hx].
Qed.

End RsiFinite.


(* ------------------------------------------------------------------ *)
(** ** Chaikin money flow stays between -1 and 1 *)

Section MoneyFlowRange.
Context {L : NumLib}.









End MoneyFlowRange.


(* ------------------------------------------------------------------ *)
(** ** On-balance volume of a rising table *)

Section ObvRising.

Lemma obv_vals_nth (df : DataFrame) i :
  (i < length df)%nat ->
  nth i (obv_vals df) 0%Z = nth i (obv_run df i) 0%Z.
Proof.
  intros Hi. unfold obv_vals. fold (obv_run df (length df - 1)).
  apply obv_run_prefix; lia.
Qed.

Lemma int64_wrap_add (a b : Z) :
  np.int64_wrap (np.int64_wrap a + b) = np.int64_wrap (a + b).
Proof.
  unfold np.int64_wrap. f_equal.
  replace ((a + 9223372036854775808) mod 18446744073709551616
           - 9223372036854775808 + b + 9223372036854775808)%Z
    with ((a + 9223372036854775808) mod 18446744073709551616 + b)%Z by lia.
  rewrite Zplus_mod_idemp_l. f_equal. lia.
Qed.

Lemma obv_run_rise (df : DataFrame) i prev cur :
  nth_error df i = Some prev -> nth_error df (S i) = Some cur ->
  Close prev < Close cur ->
  nth (S i) (obv_run df (S i)) 0%Z
  = np.int64_wrap (nth i (obv_run df i) 0 + Volume cur)%Z.
Proof.
  intros Hp Hc Hlt. rewrite obv_run_S.
  pose proof (obv_step_value df (obv_run df i) (S i) prev cur) as Hs.
  replace (S i - 1)%nat with i in Hs by lia.
  specialize (Hs Hp Hc). cbn zeta in Hs.
  rewrite obv_run_length in Hs.
  rewrite last_nth_length, obv_run_length in Hs.
  replace (S i - 1)%nat with i in Hs by lia.
  now apply Hs.
Qed.

Lemma fold_add_app (l1 l2 : list Z) :
  fold_right Z.add 0%Z (l1 ++ l2)
  = (fold_right Z.add 0 l1 + fold_right Z.add 0 l2)%Z.
Proof. induction l1 as [|x l1 IH]; simpl; [reflexivity | rewrite IH; lia]. Qed.

Lemma firstn_S_nth (l : list Z) i :
  (i < length l)%nat -> firstn (S i) l = firstn i l ++ [nth i l 0%Z].
Proof.
  revert i. induction l as [|x l IH]; intros [|i] Hi; simpl in *; try lia;
    [reflexivity|].
  f_equal. apply IH. lia.
Qed.

Lemma volume_since_first_S (df : DataFrame) i cur :
  nth_error df (S i) = Some cur ->
  volume_since_first df (S i) = (volume_since_first df i + Volume cur)%Z.
Proof.
  intros Hc. unfold volume_since_first.
  pose proof (nth_error_lt _ _ _ Hc) as Hl.
  rewrite firstn_S_nth
    by (rewrite length_skipn; unfold col_volume; rewrite length_map; lia).
  rewrite fold_add_app. cbn [fold_right]. rewrite nth_skipn.
  replace (nth (1 + i) (col_volume df) 0%Z) with (Volume cur); [lia|].
  symmetry. unfold col_volume. apply nth_error_nth.
  now apply (map_nth_error Volume).
Qed.

Lemma obv_run_rising (df : DataFrame) i :
  rising df -> (i < length df)%nat ->
  nth i (obv_run df i) 0%Z = np.int64_wrap (volume_since_first df i).
Proof.
  intros Hr. induction i as [|i IH]; intros Hi; [reflexivity|].
  destruct (nth_error df i) as [prev|] eqn:Ep;
    [|apply nth_error_None in Ep; lia].
  destruct (nth_error df (S i)) as [cur|] eqn:Ec;
    [|apply nth_error_None in Ec; lia].
  rewrite (obv_run_rise df i prev cur Ep Ec (Hr i prev cur Ep Ec)).
  rewrite (volume_since_first_S df i cur Ec). rewrite IH by lia.
  apply int64_wrap_add.
Qed.

(** X8.  On-balance volume of a rising table.  If every close is above the
    close before it, the on-balance volume at position [i] is the sum of the
    volumes of the bars 1 to [i], reduced into the int64 range by
    wrap-around; it is the exact sum whenever that sum lies in the int64
    range.  The volume of bar 0 is never counted. *)
Theorem obv_of_rising_table (df : DataFrame) (i : nat) :
  rising df -> (i < length df)%nat ->
  exists o,
    obv df = Some o
    /\ nth i o 0%Z = np.int64_wrap (volume_since_first df i)
    /\ (in_int64 (volume_since_first df i) ->
        nth i o 0%Z = volume_since_first df i).
Proof.
  intros Hr Hi. exists (obv_vals df). split.
  - apply obv_returns. destruct df; [simpl in Hi; lia | discriminate].
  - rewrite obv_vals_nth by exact Hi. rewrite obv_run_rising by assumption.
    split; [reflexivity | apply int64_wrap_small].
Qed.

End ObvRising.


(* ------------------------------------------------------------------ *)
(** ** The document and the exported table *)

Section Document.
Context {L : NumLib}.

(** What [main] writes on a non-empty table, field by field. *)
Lemma main_document (df : DataFrame) (files : Files) :
  df <> [] ->
  exists payload,
    main df files =
      (Returned,
       {| rhm_latest_json := Some payload;
          rhm_prices_last120_csv := Some (frame_tail 120 (enriched df)) |})
    /\ ticker payload = TICKER
    /\ as_of payload = last (map Date df) ""%string
    /\ price payload =
         {| close := Some (pd.iloc_last (col (pd.tail 1 df) Close));
            open := Some (pd.iloc_last (col (pd.tail 1 df) Open));
            high := Some (pd.iloc_last (col (pd.tail 1 df) High));
            low := Some (pd.iloc_last (col (pd.tail 1 df) Low));
            volume :=
              F.round_to_53_bits (last (col_volume (pd.tail 1 df)) 0%Z) |}
    /\ indicators payload =
         (let latest := frame_tail 1 (enriched df) in
          {| bollinger_out :=
               {| ma20 := float_or_none (pd.iloc_last (BB_MA20 latest));
                  upper := float_or_none (pd.iloc_last (BB_Upper latest));
                  lower := float_or_none (pd.iloc_last (BB_Lower latest)) |};
             rsi14 := float_or_none (pd.iloc_last (RSI14 latest));
             macd_out :=
               {| line := float_or_none (pd.iloc_last (MACD latest));
                  signal := float_or_none (pd.iloc_last (MACD_Signal latest));
                  hist := float_or_none (pd.iloc_last (MACD_Hist latest)) |};
             cmf20 := float_or_none (pd.iloc_last (CMF20 latest));
             obv_out := float_or_none (F.of_int64 (last (OBV latest) 0%Z)) |})
    /\ levels payload =
         {| support_hint := Some (F.round (support df) 2);
            resistance_hint := Some (F.round (resistance df) 2) |}
    /\ hv20_proxy (volatility payload) =
         (if truthy (hv20 df)
          then option_map (fun x => F.round x 4) (hv20 df) else None).
Proof.
  intros Hne. pose proof (obv_returns df Hne) as Ho.
  destruct df as [|b df']; [congruence|].
  unfold main, enriched, bollinger, macd. rewrite Ho. cbv zeta.
  rewrite to_int_of_int64.
  eexists. split; [reflexivity|]. repeat split.
Qed.

End Document.

Section DocumentFacts.
Context {L : NumLib}.

Lemma snoc_of_nonempty (df : DataFrame) :
  df <> [] -> exists init b, df = init ++ [b].
Proof.
  intros Hne. destruct (exists_last Hne) as (init & b & E). eauto.
Qed.

Lemma tail1_snoc {A} (init : list A) (b : A) : pd.tail 1 (init ++ [b]) = [b].
Proof.
  unfold pd.tail. rewrite length_app. cbn [length].
  replace (length init + 1 - 1)%nat with (length init) by lia.
  now rewrite skipn_app, skipn_all, Nat.sub_diag.
Qed.

Lemma obv_vals_length (df : DataFrame) :
  df <> [] -> length (obv_vals df) = length df.
Proof.
  intros Hne. unfold obv_vals. fold (obv_run df (length df - 1)).
  rewrite obv_run_length. destruct df; [congruence | simpl; lia].
Qed.

(** Every indicator column has one cell per bar. *)
Lemma enriched_column_lengths (df : DataFrame) :
  df <> [] ->
  rows (enriched df) = df
  /\ Forall (fun n => n = length df) (column_lengths (enriched df)).
Proof.
  intros Hne. unfold enriched, bollinger, macd.
  cbv [rows column_lengths BB_MA20 BB_Upper BB_Lower RSI14 MACD MACD_Signal
       MACD_Hist CMF20 OBV].
  split; [reflexivity|].
  repeat constructor;
    rewrite ?zip_with_length, ?length_map, ?rolling_length,
      ?ewm_mean_length, ?zip_with_length, ?ewm_mean_length, ?rsi_length,
      ?chaikin_mf_length, ?col_length; try lia.
  now apply obv_vals_length.
Qed.

(** X9.  The exported table.  On a non-empty table the CSV holds the last 120
    rows of the table (all of them when there are fewer), and each of the
    nine indicator columns has exactly one cell per exported row. *)
Theorem exported_table_is_last_120_rows (df : DataFrame) (files : Files) :
  df <> [] ->
  exists frame,
    rhm_prices_last120_csv (snd (main df files)) = Some frame
    /\ rows frame = pd.tail 120 df
    /\ length (rows frame) = Nat.min 120 (length df)
    /\ Forall (fun n => n = length (rows frame)) (column_lengths frame).
Proof.
  intros Hne. destruct (main_document df files Hne) as (p & Hmain & _).
  exists (frame_tail 120 (enriched df)). rewrite Hmain.
  destruct (enriched_column_lengths df Hne) as [Hrows Hcols].
  split; [reflexivity|].
  cbn [frame_tail rows]. rewrite Hrows.
  split; [reflexivity|]. split; [apply tail_length|].
  cbv [column_lengths frame_tail BB_MA20 BB_Upper BB_Lower RSI14 MACD
       MACD_Signal MACD_Hist CMF20 OBV] in Hcols |- *.
  rewrite !tail_length.
  repeat (apply Forall_cons_iff in Hcols as [-> Hcols]).
  repeat constructor.
Qed.

(** X10.  The document reports the last bar.  On a table that ends with the
    bar [b], the ticker is RHM.DE, the as-of date is the date of [b], and
    the price block holds the close, open, high and low of [b] and its
    volume after the passage through float64: the volume itself when its
    size is below [2^53], else the volume rounded to 53 significant bits. *)
Theorem document_reports_last_bar
  (init : DataFrame) (b : Bar) (files : Files) :
  exists payload,
    rhm_latest_json (snd (main (init ++ [b]) files)) = Some payload
    /\ ticker payload = "RHM.DE"%string
    /\ as_of payload = Date b
    /\ price payload =
         {| close := Some (Fin (Close b)); open := Some (Fin (Open b));
            high := Some (Fin (High b)); low := Some (Fin (Low b));
            volume := F.round_to_53_bits (Volume b) |}
    /\ ((Z.abs (Volume b) < 9007199254740992)%Z ->
        volume (price payload) = Volume b).
Proof.
  assert (Hne : init ++ [b] <> []) by (destruct init; discriminate).
  destruct (main_document (init ++ [b]) files Hne)
    as (p & Hmain & Ht & Ha & Hp & _).
  exists p. rewrite Hmain. split; [reflexivity|]. split; [exact Ht|].
  rewrite tail1_snoc in Hp. split; [|split].
  - rewrite Ha, map_app. cbn [map]. apply last_last.
  - exact Hp.
  - intros Hv. rewrite Hp. cbn [volume col_volume map last].
    unfold F.round_to_53_bits.
    replace (Z.abs (Volume b) <? 9007199254740992)%Z with true;
      [reflexivity|].
    symmetry. now apply Z.ltb_lt.
Qed.

Lemma json_is_nan_float_or_none (x : float64) :
  json_is_nan (float_or_none x) = false.
Proof. destruct x; reflexivity. Qed.

(** The document's NaN test, reduced to the three entries that are written
    without a NaN check. *)
Lemma payload_nan_sources (df : DataFrame) (files : Files) :
  df <> [] ->
  exists payload,
    rhm_latest_json (snd (main df files)) = Some payload
    /\ levels payload =
         {| support_hint := Some (F.round (support df) 2);
            resistance_hint := Some (F.round (resistance df) 2) |}
    /\ hv20_proxy (volatility payload) =
         (if truthy (hv20 df)
          then option_map (fun x => F.round x 4) (hv20 df) else None)
    /\ payload_has_nan payload =
         json_is_nan (support_hint (levels payload))
         || json_is_nan (resistance_hint (levels payload))
         || json_is_nan (hv20_proxy (volatility payload)).
Proof.
  intros Hne.
  destruct (main_document df files Hne)
    as (p & Hmain & _ & _ & Hp & Hi & Hl & Hv).
  exists p. rewrite Hmain. split; [reflexivity|].
  split; [exact Hl|]. split; [exact Hv|].
  unfold payload_has_nan. rewrite Hp, Hi.
  destruct (snoc_of_nonempty df Hne) as (init & b & ->).
  rewrite tail1_snoc.
  cbn [close open high low bollinger_out ma20 upper lower rsi14 macd_out
       line signal hist cmf20 obv_out].
  rewrite !json_is_nan_float_or_none. reflexivity.
Qed.


End DocumentFacts.


(* ------------------------------------------------------------------ *)
(** ** Volatility and levels of well-formed tables *)

Section WellFormedTables.
Context {L : NumLib}.

Lemma log_positive_fin (df : DataFrame) :
  Forall (fun b => 0 < Close b) df -> all_fin (map np.log (col df Close)).
Proof.
  intros H. unfold col. rewrite map_map. apply Forall_map.
  eapply Forall_impl; [|exact H]. intros b Hb. cbv beta in *.
  unfold np.log. replace (Qcompare (Close b) 0) with Gt; [reflexivity|].
  symmetry. now apply Qgt_alt.
Qed.

Lemma dropna_all_fin (s : Series) : all_fin s -> pd.dropna s = s.
Proof.
  induction 1 as [|x s Hx _ IH]; [reflexivity|].
  destruct x; try discriminate. cbn [pd.dropna filter F.isnan negb].
  fold (pd.dropna s). now rewrite IH.
Qed.

Lemma tail_all_fin n (s : Series) : all_fin s -> all_fin (pd.tail n s).
Proof.
  intros Hs. unfold pd.tail.
  rewrite <- (firstn_skipn (length s - n) s) in Hs at 1.
  now apply Forall_app in Hs as [_ Hs].
Qed.

Lemma tail_cons {A} n (x : A) (s : list A) :
  (n <= length s)%nat -> pd.tail n (x :: s) = pd.tail n s.
Proof.
  intros Hn. unfold pd.tail. cbn [length].
  replace (S (length s) - n)%nat with (S (length s - n)) by lia.
  reflexivity.
Qed.

Lemma mul_finn (x y : float64) : finn x -> finn y -> finn (F.mul x y).
Proof.
  destruct x as [| | |a], y as [| | |b]; cbn [finn]; try tauto.
  intros Ha Hb. cbn [F.mul finn]. rewrite Qred_correct. nra.
Qed.

(** The log-returns of a table with positive closes: NaN, then one finite
    cell per later bar. *)
Lemma logret_positive (b : Bar) (rest : DataFrame) :
  Forall (fun b => 0 < Close b) (b :: rest) ->
  exists fins,
    logret (b :: rest) = NaN :: fins
    /\ all_fin fins /\ length fins = length rest.
Proof.
  intros Hpos. pose proof (log_positive_fin _ Hpos) as Hlog.
  unfold logret. cbn [col map] in *. cbn [pd.diff].
  eexists. split; [reflexivity|]. split.
  - apply zip_with_fin; [exact sub_Fin | now inversion Hlog | exact Hlog].
  - rewrite zip_with_length. cbn [length].
    rewrite !length_map. lia.
Qed.

(** The volatility estimate of a table with positive closes. *)
Lemma hv20_positive (df : DataFrame) :
  Forall (fun b => 0 < Close b) df ->
  ((length df <= 21)%nat /\ hv20 df = None)
  \/ ((22 <= length df)%nat /\ exists q, hv20 df = Some (Fin q) /\ 0 <= q).
Proof.
  intros Hpos. unfold hv20.
  destruct df as [|b rest]; [left; split; [simpl; lia | reflexivity]|].
  destruct (logret_positive b rest Hpos) as (fins & -> & Hfin & Hlen).
  cbn [pd.dropna filter F.isnan negb]. fold (pd.dropna fins).
  rewrite (dropna_all_fin fins Hfin), Hlen. cbn [length].
  destruct (Nat.ltb_spec 20 (length rest)) as [Hn|Hn];
    [right | left; split; [lia | reflexivity]].
  split; [lia|].
  unfold pd.iloc_last.
  rewrite rolling_last by (cbn [length]; lia).
  rewrite tail_cons by lia.
  rewrite (all_fin_no_nan _ (tail_all_fin 20 fins Hfin)).
  assert (Hstd : finn (pd.std (pd.tail 20 fins))).
  { apply std_finn; [now apply tail_all_fin|].
    rewrite tail_length. lia. }
  assert (Hs252 : finn (np.sqrt (Fin 252))) by (apply sqrt_finn; cbn; lra).
  pose proof (mul_finn _ _ Hstd Hs252) as Hm.
  destruct (F.mul _ _) as [| | |q]; cbn [finn] in Hm; try contradiction.
  eauto.
Qed.

(** X12.  The volatility estimate on positive closes.  If every close is
    positive, [hv20] is undefined for 21 bars or fewer, and for 22 bars or
    more it is a finite value that is not negative. *)
Theorem hv20_of_positive_closes (df : DataFrame) :
  Forall (fun b => 0 < Close b) df ->
  ((length df <= 21)%nat -> hv20 df = None)
  /\ ((22 <= length df)%nat -> exists q, hv20 df = Some (Fin q) /\ 0 <= q).
Proof.
  intros Hpos.
  destruct (hv20_positive df Hpos) as [[Hn H] | [Hn H]]; split; intros Hn';
    try lia; exact H.
Qed.

Lemma round_half_even_bounds (q : Q) :
  (Qfloor q <= F.round_half_even q <= Qfloor q + 1)%Z.
Proof.
  unfold F.round_half_even.
  destruct (Qcompare _ _); [destruct (Z.even _)| |]; lia.
Qed.

(** Rounding half to even never reverses the order of two values. *)
Lemma round_half_even_mono (a b : Q) :
  a <= b -> (F.round_half_even a <= F.round_half_even b)%Z.
Proof.
  intros Hab. pose proof (Qfloor_resp_le _ _ Hab) as Hf.
  pose proof (round_half_even_bounds a) as Ha.
  pose proof (round_half_even_bounds b) as Hb.
  destruct (Z.eq_dec (Qfloor a) (Qfloor b)) as [E|E]; [|lia].
  unfold F.round_half_even in *. rewrite E in *.
  destruct (Qcompare (a - inject_Z (Qfloor b)) (1 # 2)) eqn:Ca;
    destruct (Qcompare (b - inject_Z (Qfloor b)) (1 # 2)) eqn:Cb;
    try lia;
    try (destruct (Z.even (Qfloor b)); lia);
    first [apply Qeq_alt in Ca | apply Qlt_alt in Ca | apply Qgt_alt in Ca];
    first [apply Qeq_alt in Cb | apply Qlt_alt in Cb | apply Qgt_alt in Cb];
    exfalso; lra.
Qed.

Lemma round_mono (a b : Q) (ndigits : nat) :
  a <= b ->
  exists ra rb,
    F.round (Fin a) ndigits = Fin ra /\ F.round (Fin b) ndigits = Fin rb
    /\ ra <= rb.
Proof.
  intros Hab. cbn [F.round].
  eexists. eexists. split; [reflexivity|]. split; [reflexivity|].
  rewrite !Qred_correct.
  assert (Hs : 0 < inject_Z (10 ^ Z.of_nat ndigits)).
  { change 0 with (inject_Z 0). rewrite <- Zlt_Qlt.
    apply Z.pow_pos_nonneg; lia. }
  apply Qmult_le_compat_r; [|apply Qlt_le_weak, Qinv_lt_0_compat, Hs].
  rewrite <- Zle_Qle. apply round_half_even_mono.
  apply Qmult_le_compat_r; [exact Hab | lra].
Qed.

(** The two levels before rounding, once there are five bars. *)
Lemma levels_of_five_bars (df : DataFrame) :
  (5 <= length df)%nat ->
  exists lo hi,
    support df = Fin lo /\ resistance df = Fin hi
    /\ is_min_of lo (map Low (pd.tail 5 df))
    /\ is_max_of hi (map High (pd.tail 5 df)).
Proof.
  intros H5.
  assert (Hne : df <> []) by (destruct df; [simpl in H5; lia | discriminate]).
  assert (Hlows : map Low (pd.tail 5 df) <> []).
  { intros E. apply map_eq_nil in E. revert E.
    apply tail_nonempty; [lia | exact Hne]. }
  assert (Hhighs : map High (pd.tail 5 df) <> []).
  { intros E. apply map_eq_nil in E. revert E.
    apply tail_nonempty; [lia | exact Hne]. }
  destruct (min_Fin _ Hlows) as (lo & Hlo & Hmin).
  destruct (max_Fin _ Hhighs) as (hi & Hhi & Hmax).
  exists lo, hi. unfold support, resistance.
  rewrite !level_last_five by exact H5. rewrite Hlo, Hhi. auto.
Qed.

(** X13.  Support is never above resistance.  With at least five bars, each
    with its low at most its high, both hints of the document are finite and
    the support hint is at most the resistance hint. *)
Theorem support_hint_at_most_resistance_hint (df : DataFrame) (files : Files) :
  (5 <= length df)%nat ->
  Forall (fun b => Low b <= High b) df ->
  exists payload s r,
    rhm_latest_json (snd (main df files)) = Some payload
    /\ support_hint (levels payload) = Some (Fin s)
    /\ resistance_hint (levels payload) = Some (Fin r)
    /\ s <= r.
Proof.
  intros H5 Hlh.
  assert (Hne : df <> []) by (destruct df; [simpl in H5; lia | discriminate]).
  destruct (main_returns df files Hne) as (p & f & Hmain & Hlev & _).
  destruct (levels_of_five_bars df H5)
    as (lo & hi & Hs & Hr & [Hin Hmin] & [_ Hmax]).
  assert (Hle : lo <= hi).
  { apply in_map_iff in Hin as (b & <- & Hb).
    assert (Hbh : High b <= hi).
    { apply (proj1 (Forall_forall _ _) Hmax). now apply in_map. }
    assert (Hbl : Low b <= High b).
    { apply (proj1 (Forall_forall _ _) Hlh).
      unfold pd.tail in Hb.
      rewrite <- (firstn_skipn (length df - 5) df).
      apply in_or_app. now right. }
    lra. }
  destruct (round_mono lo hi 2 Hle) as (s & r & Es & Er & Hsr).
  exists p, s, r. rewrite Hmain, Hlev, Hs, Hr, Es, Er.
  repeat split. exact Hsr.
Qed.

(** X14.  A document without NaN.  With at least five bars and every close
    positive, no number of the document is NaN. *)
Theorem document_free_of_nan (df : DataFrame) (files : Files) :
  (5 <= length df)%nat ->
  Forall (fun b => 0 < Close b) df ->
  exists payload,
    rhm_latest_json (snd (main df files)) = Some payload
    /\ payload_has_nan payload = false.
Proof.
  intros H5 Hpos.
  assert (Hne : df <> []) by (destruct df; [simpl in H5; lia | discriminate]).
  destruct (payload_nan_sources df files Hne) as (p & Hmain & Hlev & Hvol & Hn).
  exists p. split; [exact Hmain|]. rewrite Hn, Hlev, Hvol.
  destruct (levels_of_five_bars df H5) as (lo & hi & -> & -> & _).
  cbn [support_hint resistance_hint F.round json_is_nan orb].
  destruct (hv20_positive df Hpos) as [[_ ->] | [_ (q & -> & _)]];
    [reflexivity|].
  cbn [truthy option_map F.round]. destruct (negb _); reflexivity.
Qed.

End WellFormedTables.


(* ------------------------------------------------------------------ *)
(** ** The further statements on the sample tables *)

Lemma Forall_forallb {A} (P : A -> Prop) (p : A -> bool) (l : list A) :
  (forall x, p x = true -> P x) -> forallb p l = true -> Forall P l.
Proof.
  intros Hp H. apply Forall_forall. intros x Hx.
  apply Hp. exact (proj1 (forallb_forall p l) H x Hx).
Qed.

Lemma closes_between_check (lo hi : Q) (df : DataFrame) :
  forallb (fun b => Qle_bool lo (Close b) && Qle_bool (Close b) hi) df = true ->
  Forall (fun b => lo <= Close b <= hi) df.
Proof.
  apply Forall_forallb. intros b Hb.
  apply andb_true_iff in Hb as [H1 H2].
  split; now apply Qle_bool_iff.
Qed.

Lemma positive_closes_check (df : DataFrame) :
  forallb (fun b => F.Qlt_bool 0 (Close b)) df = true ->
  Forall (fun b => 0 < Close b) df.
Proof. apply Forall_forallb. intros b Hb. now apply Qlt_bool_true. Qed.

Lemma low_high_check (df : DataFrame) :
  forallb (fun b => Qle_bool (Low b) (High b)) df = true ->
  Forall (fun b => Low b <= High b) df.
Proof. apply Forall_forallb. intros b Hb. now apply Qle_bool_iff. Qed.


Lemma macd_bounded_by_close_range_witness :
  exists h,
    iloc (snd (macd (col (zigzag_table 6) Close) 12 26 9)) 5 = Fin h
    /\ Qabs h <= 2 * (110 - 100).
Proof.
  pose proof (macd_bounded_by_close_range (zigzag_table 6) 100 110 5
                (closes_between_check 100 110 (zigzag_table 6) eq_refl)
                ltac:(apply Nat.ltb_lt; reflexivity)) as H.
  destruct (macd (col (zigzag_table 6) Close) 12 26 9) as [[ml sl] hl].
  destruct H as (m & s & h & _ & _ & Hh & _ & _ & Hb).
  exists h. split; assumption.
Defined.

Lemma macd_of_flat_closes_is_zero_witness :
  exists h,
    iloc (snd (macd (col (flat_table 5) Close) 12 26 9)) 4 = Fin h /\ h == 0.
Proof.
  pose proof (macd_of_flat_closes_is_zero (flat_table 5) 100 4
                (flat_table_close 5)
                ltac:(apply Nat.ltb_lt; reflexivity)) as H.
  destruct (macd (col (flat_table 5) Close) 12 26 9) as [[ml sl] hl].
  destruct H as (m & s & h & _ & _ & Hh & _ & _ & Hz).
  exists h. split; assumption.
Defined.

Lemma rolling_indicators_warm_up_witness :
  iloc (rsi (col (zigzag_table 25) Close) 14) 5 = NaN
  /\ iloc (chaikin_mf (zigzag_table 25) 20) 5 = NaN
  /\ iloc (fst (fst (bollinger (col (zigzag_table 25) Close) 20 2))) 5 = NaN.
Proof.
  destruct (rolling_indicators_warm_up (col (zigzag_table 25) Close)
              (zigzag_table 25) 5) as (Hb & Hr & Hc).
  split; [apply Hr; lia|]. split; [apply Hc; lia|].
  specialize (Hb ltac:(lia)).
  destruct (bollinger (col (zigzag_table 25) Close) 20 2) as [[ma up] lo].
  apply Hb.
Defined.

Lemma bollinger_defined_after_warm_up_witness :
  exists ma up lo m u l,
    bollinger (col (zigzag_table 21) Close) 20 2 = (ma, up, lo)
    /\ iloc ma 20 = Fin m /\ iloc up 20 = Fin u /\ iloc lo 20 = Fin l
    /\ l <= m /\ m <= u.
Proof.
  destruct (bollinger_defined_after_warm_up
              (col (zigzag_table 21) Close) _ _ _ 20
              (col_all_fin (zigzag_table 21) Close) eq_refl
              ltac:(lia) ltac:(apply Nat.ltb_lt; reflexivity))
    as (m & u & l & H).
  do 3 eexists. exists m, u, l. split; [reflexivity | exact H].
Defined.

Lemma rsi_nan_iff_no_loss_witness :
  iloc (rsi (col (zigzag_table 16) Close) 14) 15 = NaN
  <-> F.is_zero (iloc (rsi_avg_loss (col (zigzag_table 16) Close) 14) 15)
      = true.
Proof.
  apply (rsi_nan_iff_no_loss (col (zigzag_table 16) Close) 15).
  - apply col_all_fin.
  - lia.
  - apply Nat.ltb_lt. reflexivity.
Defined.

Lemma rsi_nan_when_closes_never_fall_witness :
  all_nan (rsi (map Fin (map of_nat_Q (seq 1 16))) 14).
Proof.
  apply (rsi_nan_when_closes_never_fall (map of_nat_Q (seq 1 16))).
  vm_compute. repeat split; discriminate.
Defined.


Lemma ramp_table_4_rising : rising (ramp_table 4).
Proof.
  intros i prev cur Hp Hc.
  assert (Hl : (S i < 4)%nat) by exact (nth_error_lt _ _ _ Hc).
  destruct i as [|[|[|i]]]; [| | |lia]; vm_compute in Hp, Hc;
    injection Hp as <-; injection Hc as <-; vm_compute; reflexivity.
Defined.

Lemma obv_of_rising_table_witness :
  exists o, obv (ramp_table 4) = Some o /\ nth 3 o 0%Z = 3000%Z.
Proof.
  destruct (obv_of_rising_table (ramp_table 4) 3 ramp_table_4_rising
              ltac:(apply Nat.ltb_lt; reflexivity)) as (o & Ho & _ & Hexact).
  exists o. split; [exact Ho|]. apply Hexact.
  change (volume_since_first (ramp_table 4) 3) with 3000%Z.
  unfold in_int64. lia.
Defined.

Lemma exported_table_is_last_120_rows_witness :
  exists frame,
    rhm_prices_last120_csv (snd (main (zigzag_table 3) no_files)) = Some frame
    /\ rows frame = pd.tail 120 (zigzag_table 3)
    /\ length (rows frame) = Nat.min 120 (length (zigzag_table 3))
    /\ Forall (fun n => n = length (rows frame)) (column_lengths frame).
Proof.
  apply (exported_table_is_last_120_rows (zigzag_table 3) no_files).
  discriminate.
Defined.


Lemma hv20_of_positive_closes_witness :
  hv20 (zigzag_table 21) = None
  /\ exists q, hv20 (zigzag_table 22) = Some (Fin q) /\ 0 <= q.
Proof.
  split.
  - apply (proj1 (hv20_of_positive_closes (zigzag_table 21)
                    (positive_closes_check (zigzag_table 21) eq_refl))).
    apply Nat.leb_le. reflexivity.
  - apply (proj2 (hv20_of_positive_closes (zigzag_table 22)
                    (positive_closes_check (zigzag_table 22) eq_refl))).
    apply Nat.leb_le. reflexivity.
Defined.

Lemma support_hint_at_most_resistance_hint_witness :
  exists payload s r,
    rhm_latest_json (snd (main (zigzag_table 7) no_files)) = Some payload
    /\ support_hint (levels payload) = Some (Fin s)
    /\ resistance_hint (levels payload) = Some (Fin r)
    /\ s <= r.
Proof.
  apply (support_hint_at_most_resistance_hint (zigzag_table 7) no_files).
  - apply Nat.leb_le. reflexivity.
  - apply low_high_check. vm_compute. reflexivity.
Defined.

Lemma document_free_of_nan_witness :
  exists payload,
    rhm_latest_json (snd (main (zigzag_table 7) no_files)) = Some payload
    /\ payload_has_nan payload = false.
Proof.
  apply (document_free_of_nan (zigzag_table 7) no_files).
  - apply Nat.leb_le. reflexivity.
  - apply positive_closes_check. vm_compute. reflexivity.
Defined.


(* ------------------------------------------------------------------ *)
(** ** 64-bit edges on the sample tables *)

(** C3 as stated fails: on three rising bars with a volume of [2^62] each,
    the value at position 2 is [-2^63], not the value at position 1 plus
    the volume of bar 2. *)
Lemma obv_wraps_at_int64 :
  obv huge_volume_table
  = Some [0; 4611686018427387904; -9223372036854775808]%Z
  /\ (-9223372036854775808 <> 4611686018427387904 + 4611686018427387904)%Z.
Proof. split; [vm_compute; reflexivity | lia]. Qed.

Lemma document_reports_last_bar_witness :
  exists payload,
    rhm_latest_json (snd (main (ramp_table 2 ++ [ordinary_bar]) no_files))
    = Some payload
    /\ as_of payload = "2024-01-03"%string
    /\ volume (price payload) = 1000%Z.
Proof.
  destruct (document_reports_last_bar (ramp_table 2) ordinary_bar no_files)
    as (p & Hmain & _ & Ha & _ & Hv).
  exists p. split; [exact Hmain|]. split; [exact Ha|].
  apply Hv. vm_compute. reflexivity.
Defined.

Example round_to_53_bits_examples :
  F.round_to_53_bits 9007199254740993 = 9007199254740992%Z
  /\ F.round_to_53_bits 9007199254740995 = 9007199254740996%Z
  /\ F.round_to_53_bits (-1000) = (-1000)%Z.
Proof. repeat split; vm_compute; reflexivity. Qed.

Example volume_of_big_volume_bar :
  option_map (fun p => volume (price p))
    (rhm_latest_json (snd (main (ramp_table 2 ++ [big_volume_bar]) no_files)))
  = Some 9007199254740992%Z.
Proof. vm_compute. reflexivity. Qed.

Example indicators_of_three_bars :
  option_map (fun p => (rsi14 (indicators p), cmf20 (indicators p)))
    (rhm_latest_json (snd (main (zigzag_table 3) no_files)))
  = Some (None, None).
Proof. vm_compute. reflexivity. Qed.
